(** * WhatsApp alarm system: the message-detection and de-duplication pipeline

    A shallow embedding of the watcher (the MessageWatcher class with the
    injected in-page observer, recency filter, dual-fingerprint duplicate
    cache and advancing watermark), of the text matcher it imports
    (normalizeArabicText, hashText, matchKeywords, escapeRegex) and of the
    chat filter of the earlier watcher (isChatAllowed in
    src/modules/watcher.js), followed by the properties proved about them.

    JavaScript strings are sequences of UTF-16 code units, numbers that the
    pipeline handles (time values, hash accumulators) are integers, the
    Map of detected hashes is a finite map, the in-page Set of seen keys a
    finite set.  Calls to the logger have no effect on any result and are
    left out. *)

From Stdlib Require Import ZArith Lia List String Ascii.
From Stdlib Require Import DecimalString HexadecimalString.
From stdpp Require Import gmap list.

#[local] Open Scope Z_scope.

(** ** JavaScript values and built-ins used by the program *)

(** A string is the list of its UTF-16 code units. *)
Abbreviation jsstring := (list Z).

(** ASCII literals of the source, as code units. *)
Definition lit (s : string) : jsstring :=
  List.map (fun c => Z.of_N (N_of_ascii c)) (list_ascii_of_string s).

Inductive jsval : Type :=
  | JUndefined
  | JNull
  | JBoolean (b : bool)
  | JNumber (n : Z)
  | JString (s : jsstring).

#[global] Instance jsval_eq_dec : EqDecision jsval.
Proof. solve_decision. Defined.

(** ToBoolean: what [if (v)] and [!v] test. *)
Definition truthy (v : jsval) : bool :=
  match v with
  | JUndefined | JNull => false
  | JBoolean b => b
  | JNumber n => negb (n =? 0)
  | JString s => match s with [] => false | _ :: _ => true end
  end.

(** Number.prototype.toString on an integer: decimal digits with a leading
    minus sign for negative values. *)
Definition Number_toString (n : Z) : jsstring :=
  lit (DecimalString.NilZero.string_of_int (Z.to_int n)).

(** Number.prototype.toString(16) on a non-negative integer. *)
Definition Number_toString16 (n : Z) : jsstring :=
  lit (HexadecimalString.NilZero.string_of_uint (N.to_hex_uint (Z.to_N n))).

(** ToString, as applied to the argument of [String.prototype.includes] and
    of [RegExp.prototype.test]. *)
Definition ToString (v : jsval) : jsstring :=
  match v with
  | JUndefined => lit "undefined"
  | JNull => lit "null"
  | JBoolean true => lit "true"
  | JBoolean false => lit "false"
  | JNumber n => Number_toString n
  | JString s => s
  end.

(** ToInt32: the wrap-around of the bitwise operators. *)
Definition ToInt32 (z : Z) : Z :=
  let m := z mod 2 ^ 32 in
  if 2 ^ 31 <=? m then m - 2 ^ 32 else m.

(** Abrupt completion: the only exception the modelled code can raise is the
    TypeError of calling a missing method ([toLowerCase], [replace],
    [includes] on a value that is not a string). *)
Inductive jserror : Type := TypeError.

Inductive completion (A : Type) : Type :=
  | Return (a : A)
  | Throw (e : jserror).
Arguments Return {A} a.
Arguments Throw {A} e.

#[global] Instance completion_ret : MRet completion := fun _ a => Return a.
#[global] Instance completion_bind : MBind completion := fun _ _ f c =>
  match c with
  | Return a => f a
  | Throw e => Throw e
  end.

(** [try { c } catch (error) { return v }] *)
Definition try_catch {A} (c : completion A) (v : A) : A :=
  match c with
  | Return a => a
  | Throw _ => v
  end.

(** *** Strings *)

Fixpoint startsWith (s sub : jsstring) {struct sub} : bool :=
  match sub, s with
  | [], _ => true
  | _ :: _, [] => false
  | c :: sub', d :: s' => (c =? d) && startsWith s' sub'
  end.

(** String.prototype.includes on code units. *)
Fixpoint includes (s sub : jsstring) : bool :=
  startsWith s sub ||
  match s with
  | [] => false
  | _ :: s' => includes s' sub
  end.

(** White space and line terminators: the class [\s] and what [trim]
    removes. *)
Definition isWhiteSpace (c : Z) : bool :=
  ((9 <=? c) && (c <=? 13)) || (c =? 32) || (c =? 160) || (c =? 5760)
  || ((8192 <=? c) && (c <=? 8202)) || (c =? 8232) || (c =? 8233)
  || (c =? 8239) || (c =? 8287) || (c =? 12288) || (c =? 65279).

Fixpoint trimStart (s : jsstring) : jsstring :=
  match s with
  | c :: s' => if isWhiteSpace c then trimStart s' else s
  | [] => []
  end.

Definition trim (s : jsstring) : jsstring :=
  rev (trimStart (rev (trimStart s))).

(** String.prototype.slice(0, n) *)
Definition slice0 (n : nat) (s : jsstring) : jsstring := firstn n s.

(** The code points of a string, as a regular expression with the [u] flag
    reads it: a lead surrogate followed by a trail surrogate is one code
    point, every other code unit stands for itself. *)
Definition isLeadSurrogate (c : Z) : bool := (55296 <=? c) && (c <=? 56319).
Definition isTrailSurrogate (c : Z) : bool := (56320 <=? c) && (c <=? 57343).

Fixpoint codePoints (s : jsstring) : list Z :=
  match s with
  | [] => []
  | hi :: tl =>
      match tl with
      | lo :: rest =>
          if isLeadSurrogate hi && isTrailSurrogate lo
          then (65536 + (hi - 55296) * 1024 + (lo - 56320)) :: codePoints rest
          else hi :: codePoints tl
      | [] => [hi]
      end
  end.

(** *** What the host supplies

    Unicode data (canonical composition, case mapping, the general category
    Punctuation) and the local time zone belong to the JavaScript engine and
    the machine, not to the program: the program is modelled over any such
    host, and concrete ones are given further down for the alphabets the
    program is configured for, with and without daylight saving time. *)
Class Host : Type := {
  (** [String.prototype.normalize("NFC")] *)
  String_normalize_NFC : jsstring -> jsstring;
  (** [String.prototype.toLowerCase] *)
  String_toLowerCase : jsstring -> jsstring;
  (** the code points matched by [\p{P}] under the [u] flag *)
  unicode_P : Z -> bool;
  (** [LocalTZA(t, isUTC)] of ECMA-262, the offset of local time from UTC in
      milliseconds: the one in force at the instant [t] when [isUTC] is
      true; the one to read the local time value [t] with otherwise, where a
      local time that the clock shows twice, or skips, is read with the
      offset in force before the change *)
  LocalTZA : Z -> bool -> Z
}.

(** *** Time values

    The time functions of ECMA-262 that the methods of Date go through.
    Time values are whole milliseconds since the epoch, within the range of
    Date, where TimeClip changes nothing; division rounds down. *)
Definition msPerDay : Z := 86400000.
Definition msPerHour : Z := 3600000.
Definition msPerMinute : Z := 60000.
Definition msPerSecond : Z := 1000.

Definition Day (t : Z) : Z := t / msPerDay.
Definition HourFromTime (t : Z) : Z := (t / msPerHour) mod 24.
Definition MinFromTime (t : Z) : Z := (t / msPerMinute) mod 60.

Definition MakeTime (hour min sec ms : Z) : Z :=
  hour * msPerHour + min * msPerMinute + sec * msPerSecond + ms.

Definition MakeDate (day time : Z) : Z := day * msPerDay + time.

Definition LocalTime {host : Host} (t : Z) : Z := t + LocalTZA t true.

Definition UTC {host : Host} (t : Z) : Z := t - LocalTZA t false.

(** ** utils/textMatcher.js *)

Section TextMatcher.
Context {host : Host}.

(** The three global [replace] calls of normalizeArabicText drop every code
    unit of a class: tatweel U+0640, the zero-width and directional marks
    U+200B to U+200F, the soft hyphen U+00AD. *)
Definition isTatweel (c : Z) : bool := c =? 1600.
Definition isZeroWidth (c : Z) : bool := (8203 <=? c) && (c <=? 8207).
Definition isSoftHyphen (c : Z) : bool := c =? 173.

Definition removeAll (cls : Z -> bool) (s : jsstring) : jsstring :=
  List.filter (fun c => negb (cls c)) s.

(** normalizeArabicText.  A string goes through the [try] block, which does
    not fail on it.  On any other truthy value [text.normalize] is not a
    function: the TypeError is caught and [text] is returned as it came. *)
Definition normalizeArabicText (text : jsval) : jsval :=
  if negb (truthy text) then JString []
  else
    match text with
    | JString s =>
        let normalized := String_normalize_NFC s in
        let normalized := removeAll isTatweel normalized in
        let normalized := removeAll isZeroWidth normalized in
        let normalized := removeAll isSoftHyphen normalized in
        JString normalized
    | _ => text
    end.

(** hashText: [hash = (hash << 5) - hash + char; hash = hash & hash] over
    the code units, then [Math.abs(hash).toString(16)].  Nothing in the
    [try] block fails on a string. *)
Definition hashStep (hash char : Z) : Z :=
  ToInt32 (ToInt32 (hash * 2 ^ 5) - hash + char).

Definition hashText (text : jsstring) : jsstring :=
  Number_toString16 (Z.abs (fold_left hashStep text 0)).

(** escapeRegex: a backslash is put in front of every regular-expression
    syntax character of [str]; [str.replace] is not a function when [str] is
    not a string. *)
Definition isRegexSpecial (c : Z) : bool :=
  existsb (Z.eqb c) (lit ".*+?^${}()|[]\").

Definition escapeRegex (str : jsval) : completion jsstring :=
  match str with
  | JString s =>
      Return (flat_map (fun c => if isRegexSpecial c then [92; c] else [c]) s)
  | _ => Throw TypeError
  end.

(** The regular expression
    [(^|\s|[\p{P}])(<escaped keyword>)($|\s|[\p{P}])] with flag [u].
    In the escaped keyword a backslash is followed by the character it
    quotes and no other syntax character occurs, so the middle group is the
    literal sequence of code points read back by [patternLiteral]. *)
Fixpoint patternLiteral (pat : jsstring) : jsstring :=
  match pat with
  | [] => []
  | c :: tl =>
      match tl with
      | d :: rest => if c =? 92 then d :: patternLiteral rest
                     else c :: patternLiteral tl
      | [] => [c]
      end
  end.

Definition isBoundary (c : Z) : bool := isWhiteSpace c || unicode_P c.

(** [test]: some occurrence of the literal is preceded by the start of the
    input or a boundary code point and followed by the end of the input or
    a boundary code point.  [before] tells whether the position reached is
    at the start or just after a boundary code point. *)
Fixpoint wordScan (kw : list Z) (before : bool) (s : list Z) : bool :=
  (before && startsWith s kw &&
     match drop (length kw) s with
     | [] => true
     | c :: _ => isBoundary c
     end)
  || match s with
     | [] => false
     | c :: s' => wordScan kw (isBoundary c) s'
     end.

Definition wordRegex_test (escaped : jsstring) (input : jsval) : bool :=
  wordScan (codePoints (patternLiteral escaped)) true
           (codePoints (ToString input)).

(** Method calls on a value that may not be a string. *)
Definition toLowerCase (v : jsval) : completion jsval :=
  match v with
  | JString s => Return (JString (String_toLowerCase s))
  | _ => Throw TypeError
  end.

Definition includes_call (v : jsval) (arg : jsval) : completion bool :=
  match v with
  | JString s => Return (includes s (ToString arg))
  | _ => Throw TypeError
  end.

(** The body of the [for (const keyword of normalizedKeywords)] loop of
    matchKeywords. *)
Fixpoint matchLoop (caseSensitive wholeWordMatch : bool) (searchText : jsval)
    (normalizedKeywords : list jsval) : completion bool :=
  match normalizedKeywords with
  | [] => Return false
  | keyword :: rest =>
      searchKeyword ← (if caseSensitive then Return keyword
                       else toLowerCase keyword);
      hit ← (if wholeWordMatch
             then escaped ← escapeRegex searchKeyword;
                  Return (wordRegex_test escaped searchText)
             else includes_call searchText searchKeyword);
      if hit : bool then Return true
      else matchLoop caseSensitive wholeWordMatch searchText rest
  end.

Definition matchKeywords (text : jsval) (keywords : list jsval)
    (caseSensitive wholeWordMatch : bool) : completion bool :=
  if negb (truthy text) || (match keywords with [] => true | _ => false end)
  then Return false
  else
    let normalizedText := normalizeArabicText text in
    let normalizedKeywords := List.map normalizeArabicText keywords in
    searchText ← (if caseSensitive then Return normalizedText
                  else toLowerCase normalizedText);
    matchLoop caseSensitive wholeWordMatch searchText normalizedKeywords.

End TextMatcher.

(** ** config.js: the [detection] block *)

Record ChatFilterConfig : Type := {
  enabled : bool;
  mode : jsstring;
  whitelistedChats : list jsstring
}.

Record DetectionConfig : Type := {
  keywords : list jsval;
  wholeWordMatch : bool;
  caseSensitive : bool;
  enableDuplicateProtection : bool;
  duplicateCacheTTL : Z;
  chatFilter : ChatFilterConfig
}.

(** ** modules/watcher.js: the MessageWatcher class *)

Definition MIN_MESSAGE_LENGTH : nat := 2.
Definition MAX_HASH_CACHE_SIZE : nat := 1000.

(** A queue entry [{ text, timestamp, messageKey }].  [timestamp] is a time
    value read off a Date in the page (integer milliseconds since the epoch,
    within the range of Date, so that its ISO rendering in the debug log is
    defined; 0 for a message known to be old) or [null]. *)
Record Message : Type := {
  msg_text : jsstring;
  msg_timestamp : option Z;
  msg_messageKey : option jsstring
}.

(** The argument of the detection callback.  [md_timestamp] is the time
    value whose ISO rendering the source passes along. *)
Record MessageData : Type := {
  md_keyword : jsval;
  md_text : jsstring;
  md_chatName : jsstring;
  md_timestamp : Z
}.

(** The fields of a watcher instance that the pipeline reads or writes.
    [onMessageDetected] tells whether a callback is installed; calling it is
    recorded as an effect. *)
Record MessageWatcher : Type := {
  onMessageDetected : bool;
  observerActive : bool;
  detectedHashes : gmap jsstring Z;
  startupTime : Z
}.

Definition set_detectedHashes (h : gmap jsstring Z) (w : MessageWatcher)
    : MessageWatcher :=
  {| onMessageDetected := onMessageDetected w;
     observerActive := observerActive w;
     detectedHashes := h;
     startupTime := startupTime w |}.

Definition set_startupTime (t : Z) (w : MessageWatcher) : MessageWatcher :=
  {| onMessageDetected := onMessageDetected w;
     observerActive := observerActive w;
     detectedHashes := detectedHashes w;
     startupTime := t |}.

Definition set_observerActive (b : bool) (w : MessageWatcher)
    : MessageWatcher :=
  {| onMessageDetected := onMessageDetected w;
     observerActive := b;
     detectedHashes := detectedHashes w;
     startupTime := startupTime w |}.

(** What a watcher does that the rest of the program can observe, in
    program order. *)
Inductive Effect : Type :=
  | Assign_startupTime (t : Z)
  | Call_onMessageDetected (messageData : MessageData).

(** What one run of handleMessage reads from the clock and from the page,
    one field per read, in the order of the reads. *)
Record Readings : Type := {
  now_recent : Z;        (* Date.now() in _isRecentMessage *)
  now_duplicate : Z;     (* Date.now() in _isDuplicate *)
  now_cleanup : Z;       (* Date.now() in _cleanupOldHashes *)
  chat_filter : jsstring;  (* _getCurrentChatName() in _shouldFilterByChat *)
  chat_event : jsstring;   (* _getCurrentChatName() for the event *)
  now_event : Z;         (* new Date() for the event *)
  now_alarm : Z          (* Date.now() in _triggerAlarm *)
}.

(** The timestamp inside a template literal, where [null] gives the empty
    string. *)
Definition nullish_empty (timestamp : option Z) : jsstring :=
  match timestamp with
  | Some t => Number_toString t
  | None => []
  end.

(** [if (messageKey)] *)
Definition truthyKey (messageKey : option jsstring) : bool :=
  match messageKey with
  | Some (_ :: _) => true
  | _ => false
  end.

Definition keyString (messageKey : option jsstring) : jsstring :=
  match messageKey with
  | Some k => k
  | None => lit "null"
  end.

Section Watcher.
Context {host : Host}.
Variable config_detection : DetectionConfig.

(** [d = new Date(t); d.setSeconds(0, 0); d.getTime()], by the steps of
    Date.prototype.setSeconds: the time value is taken to local time, the
    date is made again from its day, hour and minute with seconds and
    milliseconds zero, and that local time is taken back to UTC. *)
Definition Date_setSeconds00 (t : Z) : Z :=
  let t := LocalTime t in
  let date :=
    MakeDate (Day t) (MakeTime (HourFromTime t) (MinFromTime t) 0 0) in
  UTC date.

(** _isRecentMessage, with [now] the value of [Date.now()].  The timestamp
    is a time value or null, as the page hands it over; the log lines are
    left out. *)
Definition _isRecentMessage (w : MessageWatcher) (now : Z)
    (timestamp : option Z) : bool :=
  let startupFloorTime := Date_setSeconds00 (startupTime w) in
  if bool_decide (timestamp = Some 0) then false
  else
    match timestamp with
    | None => false
    | Some t =>
        if now <? t then false
        else if startupFloorTime <=? t then true
        else false
    end.

(** _isHashRecent *)
Definition _isHashRecent (w : MessageWatcher) (hash : jsstring)
    (currentTime : Z) : bool :=
  match detectedHashes w !! hash with
  | None => false
  | Some lastDetected =>
      currentTime - lastDetected <? duplicateCacheTTL config_detection
  end.

(** _cleanupOldHashes: above the cap, every entry with [now - timestamp >
    ttl] is deleted. *)
Definition _cleanupOldHashes (now : Z) (w : MessageWatcher) : MessageWatcher :=
  if (size (detectedHashes w) <=? MAX_HASH_CACHE_SIZE)%nat then w
  else
    let ttl := duplicateCacheTTL config_detection in
    set_detectedHashes
      (filter (fun entry => ¬ (ttl < now - entry.2)) (detectedHashes w)) w.

Definition fallbackFingerprint (text : jsstring) (timestamp : option Z)
    : jsstring :=
  text ++ lit "|" ++ nullish_empty timestamp.

Definition keyFingerprint (text : jsstring) (timestamp : option Z)
    (messageKey : option jsstring) : jsstring :=
  keyString messageKey ++ lit "|" ++ nullish_empty timestamp
    ++ lit "|" ++ text.

(** _isDuplicate: the verdict and the watcher it leaves. *)
Definition _isDuplicate (now now' : Z) (text : jsstring)
    (timestamp : option Z) (messageKey : option jsstring)
    (w : MessageWatcher) : bool * MessageWatcher :=
  if negb (enableDuplicateProtection config_detection) then (false, w)
  else
    let fallbackHash := hashText (fallbackFingerprint text timestamp) in
    if _isHashRecent w fallbackHash now then (true, w)
    else
      let keyHash := hashText (keyFingerprint text timestamp messageKey) in
      if truthyKey messageKey && _isHashRecent w keyHash now then (true, w)
      else
        let w1 :=
          if truthyKey messageKey
          then set_detectedHashes (<[keyHash := now]> (detectedHashes w)) w
          else w in
        let w2 :=
          set_detectedHashes (<[fallbackHash := now]> (detectedHashes w1)) w1 in
        (false, _cleanupOldHashes now' w2).

(** _findMatchedKeyword: the loop, and the [try]/[catch] around the whole
    of it. *)
Definition tryKeyword (text : jsstring) (keyword : jsval) : completion bool :=
  matchKeywords (JString text) [keyword]
    (caseSensitive config_detection) (wholeWordMatch config_detection).

Fixpoint findLoop (text : jsstring) (kws : list jsval) : completion jsval :=
  match kws with
  | [] => Return JNull
  | keyword :: rest =>
      hit ← tryKeyword text keyword;
      if hit : bool then Return keyword else findLoop text rest
  end.

Definition _findMatchedKeyword (text : jsstring) : jsval :=
  try_catch (findLoop text (keywords config_detection)) JNull.

(** _isChatAllowed *)
Definition _isChatAllowed (chatName : jsstring) : bool :=
  if negb (enabled (chatFilter config_detection)) then true
  else
    let mode := mode (chatFilter config_detection) in
    let whitelist := whitelistedChats (chatFilter config_detection) in
    if bool_decide (mode = lit "whitelist")
    then existsb (fun allowed => bool_decide (allowed = chatName)) whitelist
    else true.

(** _shouldFilterByChat, with [chatName] what _getCurrentChatName resolved
    to. *)
Definition _shouldFilterByChat (chatName : jsstring) : bool :=
  if negb (enabled (chatFilter config_detection)) then false
  else if negb (_isChatAllowed chatName) then true
  else false.

(** _triggerAlarm, with [now] the value of [Date.now()]. *)
Definition _triggerAlarm (now : Z) (messageData : MessageData)
    (w : MessageWatcher) : MessageWatcher * list Effect :=
  if onMessageDetected w
  then (set_startupTime now w,
        [Assign_startupTime now; Call_onMessageDetected messageData])
  else (w, []).

(** handleMessage *)
Definition handleMessage (r : Readings) (message : Message)
    (w : MessageWatcher) : MessageWatcher * list Effect :=
  let text := msg_text message in
  let timestamp := msg_timestamp message in
  let messageKey := msg_messageKey message in
  if negb (truthy (JString text)) then (w, [])
  else if negb (_isRecentMessage w (now_recent r) timestamp) then (w, [])
  else
    let '(duplicate, w1) :=
      _isDuplicate (now_duplicate r) (now_cleanup r) text timestamp
        messageKey w in
    if duplicate then (w1, [])
    else
      let matchedKeyword := _findMatchedKeyword text in
      if negb (truthy matchedKeyword) then (w1, [])
      else if _shouldFilterByChat (chat_filter r) then (w1, [])
      else
        _triggerAlarm (now_alarm r)
          {| md_keyword := matchedKeyword;
             md_text := text;
             md_chatName := chat_event r;
             md_timestamp := now_event r |} w1.

(** cleanup *)
Definition cleanup (w : MessageWatcher) : MessageWatcher :=
  set_detectedHashes ∅ (set_observerActive false w).

(** The methods that act on a watcher once it is constructed and
    initialized.  resetAfterAlarmStop only touches the page. *)
Inductive WatcherCall : Type :=
  | Call_handleMessage (r : Readings) (message : Message)
  | Call_cleanup
  | Call_resetAfterAlarmStop.

Definition watcherStep (c : WatcherCall) (w : MessageWatcher)
    : MessageWatcher * list Effect :=
  match c with
  | Call_handleMessage r message => handleMessage r message w
  | Call_cleanup => (cleanup w, [])
  | Call_resetAfterAlarmStop => (w, [])
  end.

Fixpoint watcherRun (cs : list WatcherCall) (w : MessageWatcher)
    : MessageWatcher * list Effect :=
  match cs with
  | [] => (w, [])
  | c :: cs' =>
      let '(w1, e1) := watcherStep c w in
      let '(w2, e2) := watcherRun cs' w1 in
      (w2, e1 ++ e2)
  end.

(** The detection events among the effects. *)
Definition detections (es : list Effect) : list MessageData :=
  flat_map (fun e => match e with
                     | Call_onMessageDetected d => [d]
                     | Assign_startupTime _ => []
                     end) es.

End Watcher.

(** ** The observer injected into the page (_injectObserver)

    The page-side state is the pair of globals [window.__messageQueue] and
    [window.__seenMessageKeys].  What processNode reads from the document
    for an added node is gathered in [Node]: the DOM queries themselves
    (findMessageContainer, isOutgoing, the meta selectors, extractTimestamp,
    parseTimeOnly) belong to the page and are taken by their results. *)

Record Window : Type := {
  __messageQueue : list Message;
  __seenMessageKeys : gset jsstring
}.

Record Container : Type := {
  textContent : option jsstring;     (* messageContainer.textContent *)
  outgoing : bool;                   (* isOutgoing(messageContainer) *)
  timeText : option jsstring;        (* of the first meta element, or null *)
  extractedTimestamp : option Z;     (* extractTimestamp(messageContainer) *)
  dataId : option jsstring;          (* messageContainer.getAttribute("data-id") *)
  closestDataId : option jsstring;   (* data-id of node.closest("[data-id]") *)
  timeFallback : option Z            (* parseTimeOnly(text) *)
}.

Record Node : Type := {
  isElementNode : bool;                   (* nodeType === ELEMENT_NODE *)
  messageContainer : option Container     (* findMessageContainer(node) *)
}.

Definition truthyNumber (n : option Z) : bool :=
  match n with
  | Some t => negb (t =? 0)
  | None => false
  end.

(** extractMessageKey *)
Definition extractMessageKey (c : Container) (text : jsstring) : jsstring :=
  if truthyKey (dataId c) then lit "id:" ++ keyString (dataId c)
  else if truthyKey (closestDataId c)
  then lit "id:" ++ keyString (closestDataId c)
  else if truthyKey (timeText c)
  then lit "meta:" ++ keyString (timeText c) ++ lit "|text:" ++ text
  else if truthyNumber (timeFallback c)
  then lit "time:" ++ nullish_empty (timeFallback c) ++ lit "|text:" ++ text
  else lit "text:" ++ slice0 100 (trim text).

(** The dedupe key of processNode. *)
Definition dedupeKey (messageKey : jsstring) (timestamp : option Z)
    (text : jsstring) : jsstring :=
  if truthy (JString messageKey)
  then messageKey ++ lit "|" ++ nullish_empty timestamp ++ lit "|" ++ text
  else text ++ lit "|" ++ nullish_empty timestamp.

(** processNode up to the look-up in the seen-key set: the queue entry a
    node stands for together with its dedupe key, or nothing when the node
    is discarded before that (not an element, no container, text too short,
    outgoing). *)
Definition candidate (node : Node) : option (Message * jsstring) :=
  if negb (isElementNode node) then None
  else
    match messageContainer node with
    | None => None
    | Some c =>
        let text := match textContent c with
                    | Some t => trim t
                    | None => []
                    end in
        if (length text <=? MIN_MESSAGE_LENGTH)%nat then None
        else if outgoing c then None
        else
          let timestamp := extractedTimestamp c in
          let messageKey := extractMessageKey c text in
          Some ({| msg_text := text;
                   msg_timestamp := timestamp;
                   msg_messageKey := Some messageKey |},
                dedupeKey messageKey timestamp text)
    end.

(** processNode *)
Definition processNode (node : Node) (win : Window) : Window :=
  match candidate node with
  | None => win
  | Some (message, key) =>
      if bool_decide (key ∈ __seenMessageKeys win) then win
      else {| __messageQueue := __messageQueue win ++ [message];
              __seenMessageKeys := {[ key ]} ∪ __seenMessageKeys win |}
  end.

(** _injectObserver on a page where it may have run before:
    [window.__messageQueue = []] and
    [window.__seenMessageKeys = window.__seenMessageKeys || new Set()]. *)
Definition _injectObserver (before : option Window) : Window :=
  {| __messageQueue := [];
     __seenMessageKeys := match before with
                          | Some win => __seenMessageKeys win
                          | None => ∅
                          end |}.

(** The page function of processNewMessages: the queue is handed over and
    emptied. *)
Definition drainQueue (win : Window) : list Message * Window :=
  (__messageQueue win,
   {| __messageQueue := []; __seenMessageKeys := __seenMessageKeys win |}).

(** The page function of resetAfterAlarmStop. *)
Definition resetAfterAlarmStop (win : Window) : Window :=
  {| __messageQueue := []; __seenMessageKeys := __seenMessageKeys win |}.

(** Everything that touches the two globals during the life of a page. *)
Inductive PageEvent : Type :=
  | NodeAdded (node : Node)
  | QueueDrained
  | AlarmStopReset
  | ObserverInjected.

Definition pageStep (e : PageEvent) (win : Window) : Window :=
  match e with
  | NodeAdded node => processNode node win
  | QueueDrained => (drainQueue win).2
  | AlarmStopReset => resetAfterAlarmStop win
  | ObserverInjected => _injectObserver (Some win)
  end.

Definition pageRun (es : list PageEvent) (win : Window) : Window :=
  fold_left (fun w e => pageStep e w) es win.

(** ** The chat filter of the earlier watcher (src/modules/watcher.js) *)

Section EarlierWatcher.
Context {host : Host}.
Variable config_detection : DetectionConfig.

(** isChatAllowed *)
Definition isChatAllowed (chatName : jsstring) : bool :=
  let enabled := enabled (chatFilter config_detection) in
  let mode := mode (chatFilter config_detection) in
  let whitelistedChats := whitelistedChats (chatFilter config_detection) in
  if negb enabled then true
  else if bool_decide (mode = lit "whitelist")
  then existsb (fun allowed =>
                  includes (String_toLowerCase chatName)
                           (String_toLowerCase allowed)) whitelistedChats
  else if bool_decide (mode = lit "active")
  then negb (bool_decide (chatName = lit "Unknown"))
  else true.

End EarlierWatcher.

(** ** A concrete host

    Unicode data restricted to the alphabets the program is configured for:
    Basic Latin (U+0000 to U+007F), the Arabic block (U+0600 to U+06FF) and
    the marks that normalizeArabicText removes.  On strings over these code
    points [normalizeNFC], [lowerCase] and [punctuation] are the Unicode
    Character Database: canonical decomposition, canonical ordering by
    combining class, canonical composition; the case mapping; the general
    category P.  Any other code unit is taken as a caseless starter without
    decomposition that is not punctuation. *)

Module ArabicHost.

(** Canonical combining class. *)
Definition ccc (c : Z) : Z :=
  if c =? 1611 then 27 else if c =? 1612 then 28 else if c =? 1613 then 29
  else if (c =? 1560) || (c =? 1614) then 30
  else if (c =? 1561) || (c =? 1615) then 31
  else if (c =? 1562) || (c =? 1616) then 32
  else if c =? 1617 then 33 else if c =? 1618 then 34
  else if c =? 1648 then 35
  else if ((1621 <=? c) && (c <=? 1622)) || (c =? 1628) || (c =? 1631)
          || (c =? 1763) || (c =? 1770) || (c =? 1773) then 220
  else if ((1552 <=? c) && (c <=? 1559)) || ((1619 <=? c) && (c <=? 1620))
          || ((1623 <=? c) && (c <=? 1627)) || ((1629 <=? c) && (c <=? 1630))
          || ((1750 <=? c) && (c <=? 1756)) || ((1759 <=? c) && (c <=? 1762))
          || (c =? 1764) || ((1767 <=? c) && (c <=? 1768))
          || ((1771 <=? c) && (c <=? 1772)) then 230
  else 0.

(** Canonical decomposition mappings (none of them is excluded from
    composition): alef with madda, alef, waw and yeh with hamza, heh with
    yeh above, heh goal and yeh barree with hamza. *)
Definition decompositions : list (Z * (Z * Z)) :=
  [ (1570, (1575, 1619)); (1571, (1575, 1620)); (1572, (1608, 1620));
    (1573, (1575, 1621)); (1574, (1610, 1620)); (1728, (1749, 1620));
    (1730, (1729, 1620)); (1747, (1746, 1620)) ].

Definition decomposition (c : Z) : option (Z * Z) :=
  snd <$> List.find (fun e => fst e =? c) decompositions.

Definition composite (a b : Z) : option Z :=
  fst <$> List.find (fun e => (fst (snd e) =? a) && (snd (snd e) =? b))
            decompositions.

Definition decompose (s : list Z) : list Z :=
  flat_map (fun c => match decomposition c with
                     | Some (a, b) => [a; b]
                     | None => [c]
                     end) s.

(** Canonical ordering: a combining mark moves in front of the marks of
    higher class that precede it; [acc] is the text so far, reversed. *)
Fixpoint insertMark (c : Z) (acc : list Z) : list Z :=
  match acc with
  | d :: rest => if ccc c <? ccc d then d :: insertMark c rest else c :: acc
  | [] => [c]
  end.

Definition reorder (s : list Z) : list Z :=
  rev (fold_left (fun acc c => if ccc c =? 0 then c :: acc
                               else insertMark c acc) s []).

(** Canonical composition: [finished] is the text done (reversed),
    [starter] the last starter, [marks] the marks after it that did not
    combine (reversed), [lastClass] the class of the last of them. *)
Record Composing : Type := {
  finished : list Z;
  starter : option Z;
  marks : list Z;
  lastClass : Z
}.

Definition flush (st : Composing) : list Z :=
  match starter st with
  | Some s => marks st ++ s :: finished st
  | None => marks st ++ finished st
  end.

Definition composeStep (st : Composing) (c : Z) : Composing :=
  let cc := ccc c in
  let blocked := match marks st with
                 | [] => false
                 | _ :: _ => cc <=? lastClass st
                 end in
  let combined := match starter st with
                  | Some s => if blocked then None else composite s c
                  | None => None
                  end in
  match combined with
  | Some p => {| finished := finished st; starter := Some p;
                 marks := marks st; lastClass := lastClass st |}
  | None =>
      if cc =? 0
      then {| finished := flush st; starter := Some c; marks := [];
              lastClass := 0 |}
      else {| finished := finished st; starter := starter st;
              marks := c :: marks st; lastClass := cc |}
  end.

Definition compose (s : list Z) : list Z :=
  rev (flush (fold_left composeStep s
                {| finished := []; starter := None; marks := [];
                   lastClass := 0 |})).

Definition normalizeNFC (s : jsstring) : jsstring :=
  compose (reorder (decompose s)).

Definition lowerCase (s : jsstring) : jsstring :=
  List.map (fun c => if (65 <=? c) && (c <=? 90) then c + 32 else c) s.

Definition punctuation (c : Z) : bool :=
  ((33 <=? c) && (c <=? 35)) || ((37 <=? c) && (c <=? 42))
  || ((44 <=? c) && (c <=? 47)) || ((58 <=? c) && (c <=? 59))
  || ((63 <=? c) && (c <=? 64)) || ((91 <=? c) && (c <=? 93))
  || (c =? 95) || (c =? 123) || (c =? 125)
  || ((1545 <=? c) && (c <=? 1546)) || ((1548 <=? c) && (c <=? 1549))
  || (c =? 1563) || ((1565 <=? c) && (c <=? 1567))
  || ((1642 <=? c) && (c <=? 1645)) || (c =? 1748).

End ArabicHost.

(** Local time two hours ahead of UTC all year. *)
Definition arabicHost : Host :=
  {| String_normalize_NFC := ArabicHost.normalizeNFC;
     String_toLowerCase := ArabicHost.lowerCase;
     unicode_P := ArabicHost.punctuation;
     LocalTZA := fun _ _ => 7200000 |}.

(** Africa/Cairo in 2026, as the tz database has it: two hours ahead of UTC;
    three hours ahead from 24 April, 00:00 local time (22:00Z on the 23rd),
    when the clocks go forward to 01:00, until 30 October, 00:00 local
    summer time (21:00Z on the 29th), when they go back to 23:00.  The
    local times from 23:00 to 24:00 on 29 October come twice and are read as
    their first pass; those from 00:00 to 01:00 on 24 April do not come and
    are read with the winter offset. *)
Definition cairoSummerStart : Z := 1776981600000.
Definition cairoSummerEnd : Z := 1793307600000.

Definition cairoLocalTZA (t : Z) (isUTC : bool) : Z :=
  if isUTC
  then
    if (cairoSummerStart <=? t) && (t <? cairoSummerEnd)
    then 10800000 else 7200000
  else
    if (cairoSummerStart + 10800000 <=? t) && (t <? cairoSummerEnd + 10800000)
    then 10800000 else 7200000.

Definition cairoHost : Host :=
  {| String_normalize_NFC := ArabicHost.normalizeNFC;
     String_toLowerCase := ArabicHost.lowerCase;
     unicode_P := ArabicHost.punctuation;
     LocalTZA := cairoLocalTZA |}.

(** ** config.js as shipped *)

(** The five keywords: al-ghiyab, ta'khir, ghiyab, ta'akhkhar, ghab. *)
Definition kw_alghiyab : jsstring := [1575; 1604; 1594; 1610; 1575; 1576].
Definition kw_takhir : jsstring := [1578; 1571; 1582; 1610; 1585].
Definition kw_ghiyab : jsstring := [1594; 1610; 1575; 1576].
Definition kw_taakhkhar : jsstring := [1578; 1571; 1582; 1585].
Definition kw_ghab : jsstring := [1594; 1575; 1576].

Definition config : DetectionConfig :=
  {| keywords := [JString kw_alghiyab; JString kw_takhir; JString kw_ghiyab;
                  JString kw_taakhkhar; JString kw_ghab];
     wholeWordMatch := false;
     caseSensitive := false;
     enableDuplicateProtection := true;
     duplicateCacheTTL := 3600000;
     chatFilter := {| enabled := false;
                      mode := lit "whitelist";
                      whitelistedChats :=
                        [lit "Mom"; lit "Work Group"; lit "Family"] |} |}.

Definition with_chatFilter (f : ChatFilterConfig) (c : DetectionConfig)
    : DetectionConfig :=
  {| keywords := keywords c;
     wholeWordMatch := wholeWordMatch c;
     caseSensitive := caseSensitive c;
     enableDuplicateProtection := enableDuplicateProtection c;
     duplicateCacheTTL := duplicateCacheTTL c;
     chatFilter := f |}.

Definition with_keywords (ks : list jsval) (c : DetectionConfig)
    : DetectionConfig :=
  {| keywords := ks;
     wholeWordMatch := wholeWordMatch c;
     caseSensitive := caseSensitive c;
     enableDuplicateProtection := enableDuplicateProtection c;
     duplicateCacheTTL := duplicateCacheTTL c;
     chatFilter := chatFilter c |}.

(** The filter switched on in [active] mode. *)
Definition activeChatFilter : ChatFilterConfig :=
  {| enabled := true;
     mode := lit "active";
     whitelistedChats := whitelistedChats (chatFilter config) |}.

(** The time floored to the minute, as the specification words it. *)
Definition floorToMinute (t : Z) : Z := t - t mod 60000.

(** No clock change gets in the way at [t]: the offset of local time at [t]
    is a whole number of minutes, and the start of the local minute of [t]
    is read with that same offset. *)
Definition zoneSteadyAt {host : Host} (t : Z) : Prop :=
  LocalTZA t true mod 60000 = 0
  /\ LocalTZA (floorToMinute (LocalTime t)) false = LocalTZA t true.

(** ** Construction and sample data *)

(** The constructor, with [now] the value of [Date.now()], and what
    initialize leaves when the observer was injected. *)
Definition newMessageWatcher (now : Z) : MessageWatcher :=
  {| onMessageDetected := true;
     observerActive := false;
     detectedHashes := ∅;
     startupTime := now |}.

Definition initialize (w : MessageWatcher) : MessageWatcher :=
  set_observerActive true w.

(** A clock that reads [t1] up to the duplicate check and [t2] when the
    event is built and the alarm raised, in the chat [chat]. *)
Definition readings (t1 t2 : Z) (chat : jsstring) : Readings :=
  {| now_recent := t1; now_duplicate := t1; now_cleanup := t1;
     chat_filter := chat; chat_event := chat;
     now_event := t2; now_alarm := t2 |}.

(** "fi halat al-ghiyab ittasil bi", stamped 2026-01-30T12:05:00.000Z, with
    the identity key of a container whose data-id is msg-42. *)
Definition sampleText : jsstring :=
  [1601; 1610; 32; 1581; 1575; 1604; 1577; 32; 1575; 1604; 1594; 1610; 1575;
   1576; 32; 1575; 1578; 1589; 1604; 32; 1576; 1610].

Definition sampleMessage : Message :=
  {| msg_text := sampleText;
     msg_timestamp := Some 1769774700000;
     msg_messageKey := Some (lit "id:msg-42") |}.

(** A watcher constructed at 12:04:50.000Z of that day. *)
Definition sampleWatcher : MessageWatcher :=
  initialize (newMessageWatcher 1769774690000).

(** The sample watcher once the sample message went through the duplicate
    check at 12:05:59.800Z. *)
Definition recordedWatcher : MessageWatcher :=
  (_isDuplicate config 1769774759800 1769774759800 (msg_text sampleMessage)
     (msg_timestamp sampleMessage) (msg_messageKey sampleMessage)
     sampleWatcher).2.

(** A message container as WhatsApp renders it, and the node added for it. *)
Definition sampleContainer : Container :=
  {| textContent := Some (32 :: sampleText ++ [10]);
     outgoing := false;
     timeText := Some (lit "[12:05 PM, 1/30/2026] +20 10 91920189: ");
     extractedTimestamp := Some 1769774700000;
     dataId := Some (lit "msg-42");
     closestDataId := Some (lit "msg-42");
     timeFallback := None |}.

Definition sampleNode : Node :=
  {| isElementNode := true; messageContainer := Some sampleContainer |}.

(** ** The matching policy, as the specification words it

    Substring mode: the keyword is contained in the text.  Whole-word mode:
    some occurrence of the keyword is bounded on each side by an end of the
    text or by a white-space or punctuation code point.  Both are taken
    after normalization and, unless matching is case-sensitive, lower
    casing. *)

Definition Contains (t k : list Z) : Prop :=
  exists pre post, t = pre ++ k ++ post.

Definition BoundedWord (boundary : Z -> bool) (t k : list Z) : Prop :=
  exists pre post,
    t = pre ++ k ++ post
    /\ (pre = [] \/ exists p c, pre = p ++ [c] /\ boundary c = true)
    /\ (post = [] \/ exists c q, post = c :: q /\ boundary c = true).

Section MatchingPolicy.
Context {host : Host}.

Definition normalizedString (s : jsstring) : jsstring :=
  ToString (normalizeArabicText (JString s)).

Definition searchForm (caseSensitive : bool) (s : jsstring) : jsstring :=
  if caseSensitive then normalizedString s
  else String_toLowerCase (normalizedString s).

Definition Matches (cfg : DetectionConfig) (text keyword : jsstring) : Prop :=
  let t := searchForm (caseSensitive cfg) text in
  let k := searchForm (caseSensitive cfg) keyword in
  if wholeWordMatch cfg
  then BoundedWord isBoundary (codePoints t) (codePoints k)
  else Contains t k.

(** The same policy as a test. *)
Definition matchesb (cfg : DetectionConfig) (text keyword : jsstring) : bool :=
  let t := searchForm (caseSensitive cfg) text in
  let k := searchForm (caseSensitive cfg) keyword in
  if wholeWordMatch cfg
  then wordScan (codePoints k) true (codePoints t)
  else includes t k.

End MatchingPolicy.

(** ** Sample texts and keyword lists *)

(** "ta'khir al-yawm" and "muta'akhira". *)
Definition text_takhir_alyawm : jsstring :=
  [1578; 1571; 1582; 1610; 1585; 32; 1575; 1604; 1610; 1608; 1605].
Definition text_mutaakhira : jsstring :=
  [1605; 1578; 1571; 1582; 1610; 1585; 1577].

(** Alef, tatweel, combining hamza above; and "ta'khir" written with a
    tatweel after the second letter. *)
Definition alef_tatweel_hamza : jsstring := [1575; 1600; 1620].
Definition takhir_elongated : jsstring := [1578; 1571; 1600; 1582; 1610; 1585].

(** A keyword list whose first entry is a number left in by mistake. *)
Definition malformedConfig : DetectionConfig :=
  with_keywords [JNumber 123; JString kw_alghiyab] config.

(** What the three [replace] calls of normalizeArabicText keep. *)
Definition keptByNormalization (c : Z) : bool :=
  negb (isTatweel c) && negb (isZeroWidth c) && negb (isSoftHyphen c).


(** A call made when the clock reads [T] or later. *)
Definition clockNotBefore (T : Z) (c : WatcherCall) : Prop :=
  match c with
  | Call_handleMessage r _ => T <= now_alarm r
  | Call_cleanup | Call_resetAfterAlarmStop => True
  end.

(** A second message of the same minute, "ta'khir al-yawm", stamped
    12:05:00.000Z like the sample message. *)
Definition secondMessage : Message :=
  {| msg_text := text_takhir_alyawm;
     msg_timestamp := Some 1769774700000;
     msg_messageKey := Some (lit "id:msg-43") |}.


(** ** Further code of the watcher and of the utilities *)

(** *** _getCurrentChatName

    [found] is what [document.querySelector] gave for each entry of
    CHAT_HEADER_SELECTORS, in order; [evaluateThrows] tells whether
    [page.evaluate] failed, which the [catch] turns into "Unknown". *)
Record HeaderElement : Type := {
  header_textContent : option jsstring;
  header_title : option jsstring        (* getAttribute("title") *)
}.

(** [a || b] where [a] is a string or null. *)
Definition or_else (a : option jsstring) (b : jsstring) : jsstring :=
  if truthyKey a then keyString a else b.

Fixpoint firstFound (found : list (option HeaderElement))
    : option HeaderElement :=
  match found with
  | [] => None
  | Some element :: _ => Some element
  | None :: rest => firstFound rest
  end.

Definition _getCurrentChatName (evaluateThrows : bool)
    (found : list (option HeaderElement)) : jsstring :=
  if evaluateThrows then lit "Unknown"
  else
    match firstFound found with
    | Some element =>
        or_else (trim <$> header_textContent element)
          (or_else (header_title element) (lit "Unknown"))
    | None => lit "Unknown"
    end.

(** *** processNewMessages

    The queue is taken from the page and every message of it goes through
    handleMessage, in order; [rs i] is what the run for the message of index
    [i] reads.  When [page.evaluate] throws, the [catch] logs and nothing
    else happens. *)
Section Polling.
Context {host : Host}.
Variable config_detection : DetectionConfig.

Fixpoint handleEach (rs : nat -> Readings) (i : nat) (messages : list Message)
    (w : MessageWatcher) : MessageWatcher * list Effect :=
  match messages with
  | [] => (w, [])
  | msg :: rest =>
      let '(w1, e1) := handleMessage config_detection (rs i) msg w in
      let '(w2, e2) := handleEach rs (S i) rest w1 in
      (w2, e1 ++ e2)
  end.

Definition processNewMessages (evaluateThrows : bool) (rs : nat -> Readings)
    (win : Window) (w : MessageWatcher)
    : Window * MessageWatcher * list Effect :=
  if evaluateThrows then (win, w, [])
  else
    let '(messages, win') := drainQueue win in
    let '(w', es) := handleEach rs 0 messages w in
    (win', w', es).

End Polling.

(** *** utils/logger.js: the Logger class

    [LogLevel[name]] gives the number of one of the four levels, a function
    or object for a name that every object inherits (such as "toString"),
    and undefined for any other name. *)
Inductive LevelLookup : Type :=
  | OwnLevel (n : Z)
  | InheritedProperty
  | NoProperty.

Definition LogLevel_DEBUG : Z := 0.
Definition LogLevel_INFO : Z := 1.
Definition LogLevel_WARN : Z := 2.
Definition LogLevel_ERROR : Z := 3.

Definition inheritedNames : list jsstring :=
  [lit "constructor"; lit "hasOwnProperty"; lit "isPrototypeOf";
   lit "propertyIsEnumerable"; lit "toLocaleString"; lit "toString";
   lit "valueOf"; lit "__proto__"; lit "__defineGetter__";
   lit "__defineSetter__"; lit "__lookupGetter__"; lit "__lookupSetter__"].

Definition LogLevel_lookup (name : jsstring) : LevelLookup :=
  if bool_decide (name = lit "DEBUG") then OwnLevel LogLevel_DEBUG
  else if bool_decide (name = lit "INFO") then OwnLevel LogLevel_INFO
  else if bool_decide (name = lit "WARN") then OwnLevel LogLevel_WARN
  else if bool_decide (name = lit "ERROR") then OwnLevel LogLevel_ERROR
  else if bool_decide (name ∈ inheritedNames) then InheritedProperty
  else NoProperty.

Record LoggingConfig : Type := {
  logging_enabled : bool;
  logging_level : jsstring
}.

(** The constructor: [this.level = LogLevel[config.logging.level] ||
    LogLevel.INFO].  The result is a level, or something that is not a
    number. *)
Definition Logger_level (cfg : LoggingConfig) : option Z :=
  match LogLevel_lookup (logging_level cfg) with
  | OwnLevel n => if n =? 0 then Some LogLevel_INFO else Some n
  | InheritedProperty => None
  | NoProperty => Some LogLevel_INFO
  end.

(** log: whether [console.log] is reached.  [level < this.level] is false
    when [this.level] is not a number. *)
Definition Logger_log (cfg : LoggingConfig) (level : Z) : bool :=
  let below := match Logger_level cfg with
               | Some threshold => level <? threshold
               | None => false
               end in
  if negb (logging_enabled cfg) || below then false else true.

Definition Logger_debug (cfg : LoggingConfig) : bool :=
  Logger_log cfg LogLevel_DEBUG.
Definition Logger_info (cfg : LoggingConfig) : bool :=
  Logger_log cfg LogLevel_INFO.
Definition Logger_warn (cfg : LoggingConfig) : bool :=
  Logger_log cfg LogLevel_WARN.
Definition Logger_error (cfg : LoggingConfig) : bool :=
  Logger_log cfg LogLevel_ERROR.

(** The [logging] block of config.js as shipped. *)
Definition config_logging : LoggingConfig :=
  {| logging_enabled := true; logging_level := lit "DEBUG" |}.

(** *** utils/powershellHelper.js: escapePowerShellPath

    Every backslash of the path is doubled. *)
Definition escapePowerShellPath (path : jsstring) : jsstring :=
  flat_map (fun c => if c =? 92 then [92; 92] else [c]) path.

(** *** The hash as a polynomial

    The value of a string in base 31, before any wrap-around. *)
Definition poly31 (text : jsstring) (start : Z) : Z :=
  fold_left (fun a c => 31 * a + c) text start.


(** The chat filter switched on in whitelist mode, with the list as
    shipped. *)
Definition whitelistConfig : DetectionConfig :=
  with_chatFilter {| enabled := true;
                     mode := lit "whitelist";
                     whitelistedChats := whitelistedChats (chatFilter config) |}
    config.


(** A keyword that normalization reduces to nothing (a lone tatweel), and
    the shipped keywords behind an empty entry. *)
Definition vanishingKeywordConfig : DetectionConfig :=
  with_keywords [JString [1600]; JString kw_alghiyab] config.

Definition emptyKeywordConfig : DetectionConfig :=
  with_keywords (JString [] :: keywords config) config.


(** The dedupe key that processNode computes for a queue entry. *)
Definition messageDedupeKey (message : Message) : jsstring :=
  dedupeKey (keyString (msg_messageKey message)) (msg_timestamp message)
    (msg_text message).

(** What holds of the page globals at every moment: each queued message has
    a text longer than the minimum and an identity key, its dedupe key is in
    the seen-key set, and no two queued messages share a dedupe key. *)
Definition queueWellFormed (win : Window) : Prop :=
  Forall (fun message =>
            (MIN_MESSAGE_LENGTH < length (msg_text message))%nat
            /\ truthyKey (msg_messageKey message) = true
            /\ messageDedupeKey message ∈ __seenMessageKeys win)
         (__messageQueue win)
  /\ NoDup (messageDedupeKey <$> __messageQueue win).


(** ** The earlier watcher (src/modules/watcher.js): handleMessage

    The earlier class has the map of detected hashes and the callback, no
    watermark.  Its findMatchedKeyword has the body of _findMatchedKeyword,
    which stands for it here; the field currentChatName that
    getCurrentChatName sets is read nowhere and left out. *)
Record EarlyWatcher : Type := {
  early_onMessageDetected : bool;
  early_detectedHashes : gmap jsstring Z
}.

Record EarlyMessageData : Type := {
  emd_keyword : jsval;
  emd_text : jsstring;
  emd_chatName : option jsstring;     (* null when the chat filter is off *)
  emd_timestamp : Z
}.

Record EarlyReadings : Type := {
  early_now_duplicate : Z;   (* Date.now() of the duplicate protection *)
  early_now_cleanup : Z;     (* Date.now() of the cache cleaning *)
  early_chat : jsstring;     (* getCurrentChatName() *)
  early_now_event : Z        (* new Date() for the event *)
}.

Section EarlierHandleMessage.
Context {host : Host}.
Variable config_detection : DetectionConfig.

Definition early_handleMessage (r : EarlyReadings) (text : jsstring)
    (w : EarlyWatcher) : EarlyWatcher * list EarlyMessageData :=
  if negb (truthy (JString text)) then (w, [])
  else
    let ttl := duplicateCacheTTL config_detection in
    let protected :=
      if enableDuplicateProtection config_detection
      then
        let hash := hashText text in
        let now := early_now_duplicate r in
        let record :=
          Some {| early_onMessageDetected := early_onMessageDetected w;
                  early_detectedHashes :=
                    <[hash := now]> (early_detectedHashes w) |} in
        match early_detectedHashes w !! hash with
        | Some lastDetected =>
            if now - lastDetected <? ttl then None else record
        | None => record
        end
      else Some w in
    match protected with
    | None => (w, [])
    | Some w1 =>
        let w2 :=
          if (1000 <? size (early_detectedHashes w1))%nat
          then {| early_onMessageDetected := early_onMessageDetected w1;
                  early_detectedHashes :=
                    filter (fun entry => ¬ (ttl < early_now_cleanup r - entry.2))
                           (early_detectedHashes w1) |}
          else w1 in
        let matchedKeyword := _findMatchedKeyword config_detection text in
        if truthy matchedKeyword
        then
          let fire (chatName : option jsstring) :=
            if early_onMessageDetected w2
            then (w2, [{| emd_keyword := matchedKeyword;
                          emd_text := text;
                          emd_chatName := chatName;
                          emd_timestamp := early_now_event r |}])
            else (w2, []) in
          if enabled (chatFilter config_detection)
          then
            if negb (isChatAllowed config_detection (early_chat r))
            then (w2, [])
            else fire (Some (early_chat r))
          else fire None
        else (w2, [])
    end.

End EarlierHandleMessage.


(** * Properties *)

(** ** The recency filter *)

Section Recency.
Context {host : Host}.

(** Making the date again from day, hour and minute, with seconds and
    milliseconds zero, floors the time value to the minute. *)
Lemma MakeDate_minute (t : Z) :
  MakeDate (Day t) (MakeTime (HourFromTime t) (MinFromTime t) 0 0)
  = floorToMinute t.
Proof.
  unfold MakeDate, MakeTime, Day, HourFromTime, MinFromTime, floorToMinute,
    msPerDay, msPerHour, msPerMinute, msPerSecond.
  replace (t / 3600000) with (t / 60000 / 60)
    by (rewrite Z.div_div by lia; reflexivity).
  replace (t / 86400000) with (t / 60000 / 60 / 24)
    by (rewrite !Z.div_div by lia; reflexivity).
  rewrite (Z.mod_eq t 60000), (Z.mod_eq (t / 60000) 60),
    (Z.mod_eq (t / 60000 / 60) 24) by lia.
  lia.
Qed.

Lemma Date_setSeconds00_unfold (t : Z) :
  Date_setSeconds00 t = UTC (floorToMinute (LocalTime t)).
Proof. unfold Date_setSeconds00. cbv zeta. rewrite MakeDate_minute. reflexivity. Qed.

(** Away from a clock change, clearing the seconds of the local time floors
    the time value to the minute. *)
Lemma Date_setSeconds00_floor (t : Z) :
  zoneSteadyAt t -> Date_setSeconds00 t = floorToMinute t.
Proof.
  intros [Hmin Hsame]. rewrite Date_setSeconds00_unfold. unfold UTC.
  rewrite Hsame. unfold LocalTime, floorToMinute.
  apply Z.mod_divide in Hmin as [q Hq]; [| lia]. rewrite Hq.
  rewrite Z.mod_add by lia. lia.
Qed.

Lemma floorToMinute_le (t : Z) : floorToMinute t <= t.
Proof. unfold floorToMinute. pose proof (Z.mod_pos_bound t 60000). lia. Qed.

Lemma floorToMinute_mono (s t : Z) : s <= t -> floorToMinute s <= floorToMinute t.
Proof.
  intros Hst. unfold floorToMinute.
  rewrite !Z.mod_eq by lia.
  pose proof (Z.div_le_mono s t 60000). lia.
Qed.

(** What the filter computes, in one formula. *)
Lemma isRecentMessage_spec (w : MessageWatcher) (now : Z) (timestamp : option Z) :
  _isRecentMessage w now timestamp = true <->
  exists t, timestamp = Some t /\ t <> 0 /\ t <= now
            /\ Date_setSeconds00 (startupTime w) <= t.
Proof.
  unfold _isRecentMessage. cbv zeta.
  case_bool_decide as H0.
  - split; [discriminate |]. intros (t & Ht & Hnz & _). congruence.
  - destruct timestamp as [t |].
    + destruct (Z.ltb_spec now t);
        [| destruct (Z.leb_spec (Date_setSeconds00 (startupTime w)) t)].
      * split; [discriminate |]. intros (t' & [= <-] & _ & Hle & _). lia.
      * split; [| reflexivity]. intros _. exists t.
        repeat split; [congruence | lia | lia].
      * split; [discriminate |]. intros (t' & [= <-] & _ & _ & Hfl). lia.
    + split; [discriminate |]. intros (t & Ht & _). discriminate.
Qed.

(** C4, as the code has it: the recency filter rejects a timestamp of 0,
    rejects a missing timestamp, rejects every timestamp after the current
    time (so one that is 60 seconds ahead), accepts every timestamp that
    passed these checks and is at or after the floor (so the floor itself),
    and rejects every timestamp below the floor (so the floor less one
    millisecond), where the floor is the startup time with the seconds and
    milliseconds of its local time cleared: the start of its local minute,
    taken back to UTC.  Away from a clock change that is the startup time
    floored to the minute. *)
Theorem recency_filter_rules (w : MessageWatcher) (now : Z) :
  let floor := Date_setSeconds00 (startupTime w) in
  _isRecentMessage w now (Some 0) = false
  /\ _isRecentMessage w now None = false
  /\ (forall t, now < t -> _isRecentMessage w now (Some t) = false)
  /\ _isRecentMessage w now (Some (now + 60000)) = false
  /\ (forall t, t <> 0 -> t <= now -> floor <= t ->
        _isRecentMessage w now (Some t) = true)
  /\ (floor <> 0 -> floor <= now ->
        _isRecentMessage w now (Some floor) = true)
  /\ (forall t, t < floor -> _isRecentMessage w now (Some t) = false)
  /\ _isRecentMessage w now (Some (floor - 1)) = false
  /\ floor = UTC (floorToMinute (LocalTime (startupTime w)))
  /\ (zoneSteadyAt (startupTime w) -> floor = floorToMinute (startupTime w)).
Proof.
  intros floor.
  assert (Hrej : forall ts, ~ (exists t, ts = Some t /\ t <> 0 /\ t <= now
                   /\ Date_setSeconds00 (startupTime w) <= t) ->
                 _isRecentMessage w now ts = false).
  { intros ts Hno. destruct (_isRecentMessage w now ts) eqn:E; [| reflexivity].
    apply isRecentMessage_spec in E. contradiction. }
  assert (Hacc : forall t, t <> 0 -> t <= now -> floor <= t ->
                 _isRecentMessage w now (Some t) = true).
  { intros t ? ? ?. apply isRecentMessage_spec. exists t. auto. }
  split; [| split; [| split; [| split; [| split; [| split; [| split;
    [| split; [| split]]]]]]]].
  - apply Hrej. intros (t & [= <-] & Hnz & _). congruence.
  - apply Hrej. intros (t & Ht & _). discriminate.
  - intros t Hlt. apply Hrej. intros (t' & [= <-] & _ & Hle & _). lia.
  - apply Hrej. intros (t' & [= <-] & _ & Hle & _). lia.
  - exact Hacc.
  - intros Hnz Hle. apply Hacc; [exact Hnz | exact Hle | lia].
  - intros t Hlt. apply Hrej. intros (t' & [= <-] & _ & _ & Hfl).
    fold floor in Hfl. lia.
  - apply Hrej. intros (t' & [= <-] & _ & _ & Hfl). fold floor in Hfl. lia.
  - apply Date_setSeconds00_unfold.
  - apply Date_setSeconds00_floor.
Qed.

End Recency.

(** The claim C4 as worded fails here.  In Cairo the clocks go back at
    21:00:00Z on 29 October 2026.  For a startup time of 21:00:10Z, in the
    second pass of the repeated hour, the local minute 23:00 is read as its
    first pass, 20:00:00Z: a timestamp of 20:30:00Z, half an hour below the
    startup time floored to the minute, is accepted, and so is that floor
    less one millisecond. *)
Lemma recency_floor_hour_lower_when_clocks_go_back :
  let w := set_startupTime 1793307610000 sampleWatcher in
  floorToMinute (startupTime w) = 1793307600000
  /\ Date_setSeconds00 (host := cairoHost) (startupTime w) = 1793304000000
  /\ _isRecentMessage (host := cairoHost) w 1793307620000
       (Some 1793305800000) = true
  /\ _isRecentMessage (host := cairoHost) w 1793307620000
       (Some (floorToMinute (startupTime w) - 1)) = true.
Proof. vm_compute. auto. Qed.

Lemma recency_filter_rules_witness :
  _isRecentMessage (host := cairoHost) sampleWatcher 1769774759800
    (Some (floorToMinute (startupTime sampleWatcher))) = true
  /\ _isRecentMessage (host := cairoHost) sampleWatcher 1769774759800
       (Some (floorToMinute (startupTime sampleWatcher) - 1)) = false.
Proof.
  pose proof (recency_filter_rules (host := cairoHost) sampleWatcher
                1769774759800) as H.
  cbv zeta in H.
  destruct H as (_ & _ & _ & _ & _ & Hfloor & _ & Hbelow & _ & Hsteady).
  rewrite <- (Hsteady ltac:(split; vm_compute; reflexivity)).
  split; [apply Hfloor; vm_compute; congruence | exact Hbelow].
Defined.

(** ** The chat filter *)

Section ChatFilter.
Context {host : Host}.

(** The earlier watcher (src/modules/watcher.js): with filtering enabled
    and the mode set to "active", isChatAllowed returns true exactly for
    the chat names other than "Unknown". *)
Lemma isChatAllowed_active_iff (cfg : DetectionConfig) (chatName : jsstring) :
  enabled (chatFilter cfg) = true ->
  mode (chatFilter cfg) = lit "active" ->
  isChatAllowed cfg chatName = true <-> chatName <> lit "Unknown".
Proof.
  intros Hen Hmode. unfold isChatAllowed. cbv zeta.
  rewrite Hen, Hmode. simpl negb. cbv iota.
  rewrite bool_decide_eq_false_2 by (vm_compute; discriminate).
  rewrite bool_decide_eq_true_2 by reflexivity.
  rewrite negb_true_iff, bool_decide_eq_false. reflexivity.
Qed.

(** The later watchers do not tell the "active" mode apart: their
    _isChatAllowed has the whitelist branch only and lets every chat name
    through in any other mode, "Unknown" included. *)
Lemma _isChatAllowed_active (cfg : DetectionConfig) (chatName : jsstring) :
  mode (chatFilter cfg) = lit "active" ->
  _isChatAllowed cfg chatName = true.
Proof.
  intros Hmode. unfold _isChatAllowed. cbv zeta. rewrite Hmode.
  destruct (enabled (chatFilter cfg)); [| reflexivity]. simpl negb. cbv iota.
  rewrite bool_decide_eq_false_2 by (vm_compute; discriminate). reflexivity.
Qed.

End ChatFilter.

(** C2 holds of isChatAllowed, the chat filter of the earlier watcher, and
    fails of _isChatAllowed, the chat filter of the watcher with the recency
    filter and the watermark: with filtering enabled in "active" mode the
    first rejects the chat name "Unknown" and accepts "Mom", the second
    accepts "Unknown" as well, and _shouldFilterByChat lets a message of an
    unresolved chat through. *)
Theorem active_mode_lost_in_later_watcher :
  let cfg := with_chatFilter activeChatFilter config in
  isChatAllowed (host := arabicHost) cfg (lit "Unknown") = false
  /\ isChatAllowed (host := arabicHost) cfg (lit "Mom") = true
  /\ _isChatAllowed cfg (lit "Unknown") = true
  /\ _shouldFilterByChat cfg (lit "Unknown") = false.
Proof. vm_compute. auto. Qed.

(** ** The duplicate cache *)

Section DuplicateCache.
Variable cfg : DetectionConfig.

(** The verdict of _isDuplicate, read off the cache it was called on. *)
Lemma isDuplicate_verdict (w : MessageWatcher) (now now' : Z)
    (text : jsstring) (timestamp : option Z) (messageKey : option jsstring) :
  (_isDuplicate cfg now now' text timestamp messageKey w).1 =
  enableDuplicateProtection cfg
  && (_isHashRecent cfg w (hashText (fallbackFingerprint text timestamp)) now
      || (truthyKey messageKey
          && _isHashRecent cfg w
               (hashText (keyFingerprint text timestamp messageKey)) now)).
Proof.
  unfold _isDuplicate. cbv zeta.
  destruct (enableDuplicateProtection cfg); [| reflexivity]. simpl negb. cbv iota.
  destruct (_isHashRecent cfg w _ now); [reflexivity |].
  destruct (truthyKey messageKey && _isHashRecent cfg w _ now); reflexivity.
Qed.

(** Both ways out of _isDuplicate with the answer true come before any
    write. *)
Lemma isDuplicate_true_same (w : MessageWatcher) (now now' : Z)
    (text : jsstring) (timestamp : option Z) (messageKey : option jsstring) :
  (_isDuplicate cfg now now' text timestamp messageKey w).1 = true ->
  (_isDuplicate cfg now now' text timestamp messageKey w).2 = w.
Proof.
  unfold _isDuplicate. cbv zeta.
  destruct (negb (enableDuplicateProtection cfg)); [discriminate |].
  destruct (_isHashRecent cfg w _ now); [reflexivity |].
  destruct (truthyKey messageKey && _isHashRecent cfg w _ now);
    [reflexivity | discriminate].
Qed.

(** C9: when _isDuplicate answers true the watcher, and with it the map of
    detected hashes, is exactly as before: nothing is inserted and no stored
    time is refreshed, so at every later time each hash is as recent as it
    was without the sighting. *)
Theorem isDuplicate_true_leaves_cache (w : MessageWatcher) (now now' : Z)
    (text : jsstring) (timestamp : option Z) (messageKey : option jsstring) :
  (_isDuplicate cfg now now' text timestamp messageKey w).1 = true ->
  (_isDuplicate cfg now now' text timestamp messageKey w).2 = w
  /\ detectedHashes
       (_isDuplicate cfg now now' text timestamp messageKey w).2
     = detectedHashes w
  /\ forall hash later,
       _isHashRecent cfg
         (_isDuplicate cfg now now' text timestamp messageKey w).2 hash later
       = _isHashRecent cfg w hash later.
Proof.
  intros Hdup. rewrite (isDuplicate_true_same _ _ _ _ _ _ Hdup). auto.
Qed.

End DuplicateCache.

Lemma isDuplicate_true_leaves_cache_witness :
  (_isDuplicate config 1769774760800 1769774760800 (msg_text sampleMessage)
     (msg_timestamp sampleMessage) (msg_messageKey sampleMessage)
     recordedWatcher).2 = recordedWatcher.
Proof.
  apply (isDuplicate_true_leaves_cache config recordedWatcher 1769774760800
           1769774760800 (msg_text sampleMessage)
           (msg_timestamp sampleMessage) (msg_messageKey sampleMessage)).
  vm_compute. reflexivity.
Defined.

(** ** The in-page observer *)

Section InPageObserver.

Lemma processNode_seen_mono (node : Node) (win : Window) :
  __seenMessageKeys win ⊆ __seenMessageKeys (processNode node win).
Proof.
  unfold processNode. destruct (candidate node) as [[message key] |]; [| done].
  case_bool_decide; simpl; set_solver.
Qed.

Lemma pageStep_seen_mono (e : PageEvent) (win : Window) :
  __seenMessageKeys win ⊆ __seenMessageKeys (pageStep e win).
Proof.
  destruct e; simpl; [apply processNode_seen_mono | done | done | done].
Qed.

(** No event of the page's life takes a key out of the seen-key set. *)
Lemma pageRun_seen_mono (es : list PageEvent) (win : Window) :
  __seenMessageKeys win ⊆ __seenMessageKeys (pageRun es win).
Proof.
  revert win. induction es as [| e es IH]; intros win; simpl; [done |].
  etrans; [apply (pageStep_seen_mono e) | apply IH].
Qed.

Lemma processNode_records (node : Node) (win : Window) (message : Message)
    (key : jsstring) :
  candidate node = Some (message, key) ->
  key ∈ __seenMessageKeys (processNode node win).
Proof.
  intros Hc. unfold processNode. rewrite Hc.
  case_bool_decide; simpl; set_solver.
Qed.

(** C10: once processNode has handled a node with a given dedupe key, a
    later node with the same dedupe key is dropped whatever happened on the
    page in between (nodes added, the queue drained, the reset after an
    alarm stop, the observer injected again): the key is still in the
    seen-key set, and processNode leaves the queue and the set as they
    are. *)
Theorem seen_key_never_queued_again (win : Window) (node node' : Node)
    (message message' : Message) (key : jsstring) (es : list PageEvent) :
  candidate node = Some (message, key) ->
  candidate node' = Some (message', key) ->
  let later := pageRun es (processNode node win) in
  key ∈ __seenMessageKeys later
  /\ processNode node' later = later
  /\ __messageQueue (processNode node' later) = __messageQueue later.
Proof.
  intros Hc Hc' later.
  assert (Hin : key ∈ __seenMessageKeys later).
  { apply (pageRun_seen_mono es), (processNode_records _ _ _ _ Hc). }
  assert (Hdrop : processNode node' later = later).
  { unfold processNode. rewrite Hc'. rewrite bool_decide_eq_true_2; done. }
  rewrite Hdrop. auto.
Qed.

(** The first sighting of a key does queue the message. *)
Lemma processNode_queues_unseen (win : Window) (node : Node)
    (message : Message) (key : jsstring) :
  candidate node = Some (message, key) ->
  key ∉ __seenMessageKeys win ->
  __messageQueue (processNode node win) = __messageQueue win ++ [message].
Proof.
  intros Hc Hnew. unfold processNode. rewrite Hc.
  rewrite bool_decide_eq_false_2; done.
Qed.

End InPageObserver.

Lemma seen_key_never_queued_again_witness :
  let later := pageRun [QueueDrained; AlarmStopReset; ObserverInjected]
                 (processNode sampleNode (_injectObserver None)) in
  processNode sampleNode later = later.
Proof.
  cbv zeta.
  destruct (candidate sampleNode) as [[message key] |] eqn:E;
    [| vm_compute in E; discriminate].
  exact (proj1 (proj2 (seen_key_never_queued_again (_injectObserver None)
                         sampleNode sampleNode message message key
                         [QueueDrained; AlarmStopReset; ObserverInjected]
                         E E))).
Defined.

(** ** The keyword matcher *)

Section StringSearch.

Lemma startsWith_spec (s sub : jsstring) :
  startsWith s sub = true <-> exists post, s = sub ++ post.
Proof.
  revert s. induction sub as [| c sub IH]; intros s; simpl.
  - split; [intros _; exists s; reflexivity | intros _; reflexivity].
  - destruct s as [| d s]; simpl.
    + split; [discriminate | intros [post Hp]; discriminate].
    + rewrite andb_true_iff, Z.eqb_eq, IH. split.
      * intros [-> [post ->]]. exists post. reflexivity.
      * intros [post [= <- ->]]. split; [reflexivity | exists post; reflexivity].
Qed.

(** [includes] is containment. *)
Lemma includes_spec (s sub : jsstring) :
  includes s sub = true <-> Contains s sub.
Proof.
  unfold Contains. induction s as [| d s IH]; simpl.
  - rewrite orb_false_r, startsWith_spec. split.
    + intros [post Hp]. exists [], post. exact Hp.
    + intros (pre & post & Hp). destruct pre; [exists post; exact Hp |].
      discriminate.
  - rewrite orb_true_iff, startsWith_spec, IH. split.
    + intros [[post Hp] | (pre & post & ->)].
      * exists [], post. exact Hp.
      * exists (d :: pre), post. reflexivity.
    + intros (pre & post & Hp). destruct pre as [| e pre].
      * left. exists post. exact Hp.
      * right. injection Hp as <- ->. exists pre, post. reflexivity.
Qed.

Lemma patternLiteral_escape (s : jsstring) :
  patternLiteral (flat_map (fun c => if isRegexSpecial c then [92; c]
                                     else [c]) s) = s.
Proof.
  induction s as [| c s IH]; [reflexivity |].
  cbn [flat_map]. destruct (isRegexSpecial c) eqn:Esp.
  - cbn [app patternLiteral]. rewrite Z.eqb_refl. f_equal. exact IH.
  - assert (Hc : (c =? 92) = false).
    { destruct (Z.eqb_spec c 92) as [-> |]; [| reflexivity].
      vm_compute in Esp. discriminate. }
    cbn [app]. cbn [patternLiteral].
    destruct (flat_map _ s) as [| d rest] eqn:Efl.
    + simpl in IH. subst s. reflexivity.
    + rewrite Hc. f_equal. exact IH.
Qed.

End StringSearch.

Section KeywordMatcher.
Context {host : Host}.

Lemma wordScan_head (kw s : list Z) :
  startsWith s kw
  && match drop (length kw) s with
     | [] => true
     | c :: _ => isBoundary c
     end = true
  <-> exists post, s = kw ++ post
        /\ (post = [] \/ exists c q, post = c :: q /\ isBoundary c = true).
Proof.
  rewrite andb_true_iff, startsWith_spec. split.
  - intros [[post ->] Hend]. rewrite drop_app_length in Hend.
    exists post. split; [reflexivity |].
    destruct post as [| c q]; [left; reflexivity | right; eauto].
  - intros (post & -> & Hend). split; [eauto |].
    rewrite drop_app_length.
    destruct Hend as [-> | (c & q & -> & Hc)]; [reflexivity | exact Hc].
Qed.

Lemma wordScan_spec (kw : list Z) (before : bool) (s : list Z) :
  wordScan kw before s = true <->
  exists pre post,
    s = pre ++ kw ++ post
    /\ ((pre = [] /\ before = true)
        \/ exists p c, pre = p ++ [c] /\ isBoundary c = true)
    /\ (post = [] \/ exists c q, post = c :: q /\ isBoundary c = true).
Proof.
  revert before. induction s as [| d s IH]; intros before.
  - cbn [wordScan]. rewrite orb_false_r, <- andb_assoc, andb_true_iff, wordScan_head.
    split.
    + intros [-> (post & Hs & Hend)]. exists [], post. auto.
    + intros (pre & post & Hs & Hpre & Hend).
      destruct pre as [| e pre]; [| discriminate].
      destruct Hpre as [[_ ->] | (p & c & Hp & _)];
        [| destruct p; discriminate].
      split; [reflexivity | eauto].
  - cbn [wordScan]. rewrite orb_true_iff, <- andb_assoc, andb_true_iff, wordScan_head, IH.
    split.
    + intros [[-> (post & Hs & Hend)] | (pre & post & -> & Hpre & Hend)].
      * exists [], post. auto.
      * exists (d :: pre), post. split; [reflexivity |]. split; [right | exact Hend].
        destruct Hpre as [[-> Hd] | (p & c & -> & Hc)].
        -- exists [], d. auto.
        -- exists (d :: p), c. auto.
    + intros (pre & post & Hs & Hpre & Hend). destruct pre as [| e pre].
      * left. destruct Hpre as [[_ ->] | (p & c & Hp & _)];
          [| destruct p; discriminate].
        split; [reflexivity | eauto].
      * right. injection Hs as <- ->. exists pre, post.
        split; [reflexivity |]. split; [| exact Hend].
        destruct Hpre as [[Hp _] | (p & c & Hp & Hc)]; [discriminate |].
        destruct p as [| e' p].
        -- injection Hp as -> ->. left. auto.
        -- injection Hp as _ ->. right. eauto.
Qed.

(** The regular expression of the whole-word mode tests the bounded-word
    policy. *)
Lemma wordScan_BoundedWord (kw s : list Z) :
  wordScan kw true s = true <-> BoundedWord isBoundary s kw.
Proof.
  rewrite wordScan_spec. unfold BoundedWord. split.
  - intros (pre & post & Hs & [[Hnil _] | Hpre] & Hend);
      exists pre, post; auto.
  - intros (pre & post & Hs & [Hnil | Hpre] & Hend);
      exists pre, post; auto.
Qed.

Lemma matchesb_spec (cfg : DetectionConfig) (text keyword : jsstring) :
  matchesb cfg text keyword = true <-> Matches cfg text keyword.
Proof.
  unfold matchesb, Matches. cbv zeta. destruct (wholeWordMatch cfg).
  - apply wordScan_BoundedWord.
  - apply includes_spec.
Qed.

Lemma normalizeArabicText_string (s : jsstring) :
  normalizeArabicText (JString s) = JString (normalizedString s).
Proof. unfold normalizedString. destruct s; reflexivity. Qed.

(** On a non-empty text and a keyword that is a string, matchKeywords
    does not fail and decides the matching policy. *)
Lemma matchKeywords_string (cfg : DetectionConfig) (text keyword : jsstring) :
  text <> [] ->
  matchKeywords (JString text) [JString keyword]
    (caseSensitive cfg) (wholeWordMatch cfg)
  = Return (matchesb cfg text keyword).
Proof.
  intros Hne. unfold matchKeywords, matchesb. cbv zeta.
  destruct text as [| c text]; [congruence |].
  cbn [truthy negb orb List.map].
  rewrite !normalizeArabicText_string.
  unfold searchForm.
  destruct (caseSensitive cfg), (wholeWordMatch cfg);
    cbn [toLowerCase mbind completion_bind matchLoop escapeRegex
         includes_call ToString];
    unfold wordRegex_test; rewrite ?patternLiteral_escape; cbn [ToString];
    match goal with |- context [if ?b then _ else _] => destruct b end;
    reflexivity.
Qed.

End KeywordMatcher.

Section KeywordSearch.
Context {host : Host}.
Variable cfg : DetectionConfig.

Lemma findLoop_skip (text : jsstring) (pre rest : list jsval) :
  Forall (fun k => tryKeyword cfg text k = Return false) pre ->
  findLoop cfg text (pre ++ rest) = findLoop cfg text rest.
Proof.
  induction 1 as [| k pre Hk _ IH]; [reflexivity |].
  cbn [app findLoop]. rewrite Hk. exact IH.
Qed.

Lemma findLoop_hit (text : jsstring) (keyword : jsval) (rest : list jsval) :
  tryKeyword cfg text keyword = Return true ->
  findLoop cfg text (keyword :: rest) = Return keyword.
Proof. intros Hk. cbn [findLoop]. rewrite Hk. reflexivity. Qed.

Lemma findLoop_throw (text : jsstring) (keyword : jsval) (rest : list jsval)
    (e : jserror) :
  tryKeyword cfg text keyword = Throw e ->
  findLoop cfg text (keyword :: rest) = Throw e.
Proof. intros Hk. cbn [findLoop]. rewrite Hk. reflexivity. Qed.

(** Whatever the loop returns normally is null or a keyword of the list on
    which matchKeywords answered true. *)
Lemma findLoop_returns (text : jsstring) (kws : list jsval) (v : jsval) :
  findLoop cfg text kws = Return v ->
  v = JNull \/ (In v kws /\ tryKeyword cfg text v = Return true).
Proof.
  induction kws as [| k kws IH]; cbn [findLoop].
  - intros [= <-]. left. reflexivity.
  - destruct (tryKeyword cfg text k) as [[|] | e] eqn:Ek; cbn.
    + intros [= <-]. right. split; [left; reflexivity | exact Ek].
    + intros Hv. destruct (IH Hv) as [-> | [Hin Hm]]; [left; reflexivity |].
      right. split; [right; exact Hin | exact Hm].
    + discriminate.
Qed.

(** C3, as the code has it: the keyword search never ends abruptly, its
    result is null or a configured keyword that matched; when evaluating a
    keyword fails before any keyword matched, the search is over and the
    result is null, whatever the keywords after it are; a keyword that
    matches before the failing one is still the result. *)
Theorem findMatchedKeyword_failure_ends_search (text : jsstring) :
  (_findMatchedKeyword cfg text = JNull
   \/ (In (_findMatchedKeyword cfg text) (keywords cfg)
       /\ tryKeyword cfg text (_findMatchedKeyword cfg text) = Return true))
  /\ (forall pre keyword post e,
        keywords cfg = pre ++ keyword :: post ->
        Forall (fun k => tryKeyword cfg text k = Return false) pre ->
        tryKeyword cfg text keyword = Throw e ->
        _findMatchedKeyword cfg text = JNull)
  /\ (forall pre keyword post,
        keywords cfg = pre ++ keyword :: post ->
        Forall (fun k => tryKeyword cfg text k = Return false) pre ->
        tryKeyword cfg text keyword = Return true ->
        _findMatchedKeyword cfg text = keyword).
Proof.
  unfold _findMatchedKeyword. split; [| split].
  - destruct (findLoop cfg text (keywords cfg)) as [v | e] eqn:E; cbn.
    + exact (findLoop_returns _ _ _ E).
    + left. reflexivity.
  - intros pre keyword post e -> Hpre Hk.
    rewrite (findLoop_skip _ _ _ Hpre), (findLoop_throw _ _ _ _ Hk). reflexivity.
  - intros pre keyword post -> Hpre Hk.
    rewrite (findLoop_skip _ _ _ Hpre), (findLoop_hit _ _ _ Hk). reflexivity.
Qed.

(** On keywords that are strings the loop is a search for the first match
    of the policy. *)
Lemma findLoop_strings (text : jsstring) (ks : list jsstring) :
  text <> [] ->
  findLoop cfg text (List.map JString ks)
  = Return (match List.find (matchesb cfg text) ks with
            | Some keyword => JString keyword
            | None => JNull
            end).
Proof.
  intros Hne. induction ks as [| k ks IH]; [reflexivity |].
  cbn [List.map findLoop List.find].
  unfold tryKeyword. rewrite (matchKeywords_string cfg text k Hne). cbn.
  destruct (matchesb cfg text k); [reflexivity | exact IH].
Qed.

Lemma find_first {A} (f : A -> bool) (pre : list A) (x : A) (post : list A) :
  (forall y, In y pre -> f y = false) -> f x = true ->
  List.find f (pre ++ x :: post) = Some x.
Proof.
  intros Hpre Hx. induction pre as [| y pre IH]; cbn.
  - rewrite Hx. reflexivity.
  - rewrite (Hpre y) by (left; reflexivity).
    apply IH. intros z Hz. apply Hpre. right. exact Hz.
Qed.

(** On the empty text matchKeywords answers false before it looks at the
    keyword, so the search returns null whatever the list holds. *)
Lemma findMatchedKeyword_empty_text :
  _findMatchedKeyword cfg [] = JNull.
Proof.
  unfold _findMatchedKeyword.
  induction (keywords cfg) as [| k kws IH]; [reflexivity | exact IH].
Qed.

(** C7, as the code has it: on a non-empty text and a list of keyword
    strings the search returns the first keyword, in the configured order,
    whose normalized (and, unless matching is case-sensitive, lower-cased)
    form matches the normalized text; what it returns is the keyword as
    configured, not its normalized form; and it returns null exactly when
    no keyword of the list matches.  On the empty text it returns null
    whatever the keywords are. *)
Theorem findMatchedKeyword_first_match (text : jsstring) (ks : list jsstring) :
  keywords cfg = List.map JString ks ->
  (text = [] -> _findMatchedKeyword cfg text = JNull)
  /\ (text <> [] ->
      (forall pre keyword post,
         ks = pre ++ keyword :: post ->
         (forall k, In k pre -> ~ Matches cfg text k) ->
         Matches cfg text keyword ->
         _findMatchedKeyword cfg text = JString keyword)
      /\ (_findMatchedKeyword cfg text = JNull
          <-> forall keyword, In keyword ks -> ~ Matches cfg text keyword)).
Proof.
  intros Hks. split; [intros ->; apply findMatchedKeyword_empty_text |].
  intros Hne. unfold _findMatchedKeyword.
  rewrite Hks, (findLoop_strings text ks Hne). cbn [try_catch]. split.
  - intros pre keyword post -> Hpre Hk.
    rewrite (find_first (matchesb cfg text) pre keyword post); [reflexivity | |].
    + intros y Hy. destruct (matchesb cfg text y) eqn:E; [| reflexivity].
      apply matchesb_spec in E. destruct (Hpre y Hy E).
    + apply matchesb_spec. exact Hk.
  - destruct (List.find (matchesb cfg text) ks) as [k |] eqn:E.
    + split; [discriminate |]. intros Hnone.
      apply find_some in E as [Hin Hm]. apply matchesb_spec in Hm.
      destruct (Hnone k Hin Hm).
    + split; [| reflexivity]. intros _ keyword Hin Hm.
      apply matchesb_spec in Hm.
      rewrite (find_none _ _ E keyword Hin) in Hm. discriminate.
Qed.

End KeywordSearch.

(** The claim C3 as worded fails here: the number makes [toLowerCase] fail,
    the search ends with null, and the keyword after it, which does match
    the text, is never tried. *)
Lemma later_keyword_not_tried_after_failure :
  tryKeyword (host := arabicHost) malformedConfig sampleText (JNumber 123)
    = Throw TypeError
  /\ tryKeyword (host := arabicHost) malformedConfig sampleText
       (JString kw_alghiyab) = Return true
  /\ _findMatchedKeyword (host := arabicHost) malformedConfig sampleText
     = JNull.
Proof. vm_compute. auto. Qed.

Lemma findMatchedKeyword_failure_ends_search_witness :
  _findMatchedKeyword (host := arabicHost) malformedConfig sampleText = JNull.
Proof.
  exact (proj1 (proj2 (findMatchedKeyword_failure_ends_search
                         (host := arabicHost) malformedConfig sampleText))
           [] (JNumber 123) [JString kw_alghiyab] TypeError
           eq_refl (List.Forall_nil _) eq_refl).
Defined.

Lemma findMatchedKeyword_first_match_witness :
  _findMatchedKeyword (host := arabicHost) config sampleText
  = JString kw_alghiyab.
Proof.
  pose proof (findMatchedKeyword_first_match (host := arabicHost) config
                sampleText
                [kw_alghiyab; kw_takhir; kw_ghiyab; kw_taakhkhar; kw_ghab]
                eq_refl) as (_ & Hfull).
  destruct (Hfull ltac:(discriminate)) as (Hfirst & _).
  apply (Hfirst [] kw_alghiyab [kw_takhir; kw_ghiyab; kw_taakhkhar; kw_ghab]
           eq_refl).
  - intros k [].
  - apply matchesb_spec. vm_compute. reflexivity.
Defined.

(** The claim C7 as worded fails on the empty text: with an empty string
    among the keywords, that keyword matches the empty text under the
    matching policy (the empty string contains the empty string), and the
    search returns null, because matchKeywords answers false on an empty
    text before it looks at a keyword. *)
Lemma empty_text_matching_keyword_not_returned :
  keywords emptyKeywordConfig = JString [] :: keywords config
  /\ matchesb (host := arabicHost) emptyKeywordConfig [] [] = true
  /\ Matches (host := arabicHost) emptyKeywordConfig [] []
  /\ _findMatchedKeyword (host := arabicHost) emptyKeywordConfig [] = JNull.
Proof.
  split; [reflexivity |]. split; [vm_compute; reflexivity |].
  split; [apply matchesb_spec; vm_compute; reflexivity | reflexivity].
Qed.

(** C6: with the keyword list made of "ta'khir" alone, whole-word matching
    reports a match on "ta'khir al-yawm" and none on "muta'akhira", and
    substring matching reports a match on both, case-sensitive or not. *)
Theorem whole_word_versus_substring (caseSensitive : bool) :
  matchKeywords (host := arabicHost) (JString text_takhir_alyawm)
    [JString kw_takhir] caseSensitive true = Return true
  /\ matchKeywords (host := arabicHost) (JString text_mutaakhira)
       [JString kw_takhir] caseSensitive true = Return false
  /\ matchKeywords (host := arabicHost) (JString text_takhir_alyawm)
       [JString kw_takhir] caseSensitive false = Return true
  /\ matchKeywords (host := arabicHost) (JString text_mutaakhira)
       [JString kw_takhir] caseSensitive false = Return true.
Proof. destruct caseSensitive; vm_compute; auto. Qed.

(** ** The normalizer *)

Section Normalizer.
Context {host : Host}.

Lemma removeAll_kept (s : jsstring) :
  removeAll isSoftHyphen (removeAll isZeroWidth (removeAll isTatweel s))
  = List.filter keptByNormalization s.
Proof.
  unfold removeAll, keptByNormalization.
  induction s as [| c s IH]; [reflexivity |]. cbn [List.filter].
  destruct (isTatweel c); cbn [negb andb]; [exact IH |]. cbn [List.filter].
  destruct (isZeroWidth c); cbn [negb andb]; [exact IH |]. cbn [List.filter].
  destruct (isSoftHyphen c); cbn [negb andb]; [exact IH |].
  f_equal. exact IH.
Qed.

Lemma filter_twice {A} (f : A -> bool) (s : list A) :
  List.filter f (List.filter f s) = List.filter f s.
Proof.
  induction s as [| c s IH]; [reflexivity |]. cbn [List.filter].
  destruct (f c) eqn:E; [| exact IH]. cbn [List.filter]. rewrite E, IH. reflexivity.
Qed.

Lemma normalizedString_unfold (s : jsstring) :
  normalizedString s =
  match s with
  | [] => []
  | _ :: _ => List.filter keptByNormalization (String_normalize_NFC s)
  end.
Proof.
  unfold normalizedString, normalizeArabicText.
  destruct s as [| c s]; [reflexivity |]. cbn [truthy negb ToString].
  apply removeAll_kept.
Qed.

(** C8, as the code has it: normalizing a second time changes nothing when
    the string normalized once is in composed form, that is, when NFC leaves
    it as it is. *)
Theorem normalizeArabicText_idempotent_when_composed (x : jsstring) :
  String_normalize_NFC (normalizedString x) = normalizedString x ->
  normalizeArabicText (normalizeArabicText (JString x))
  = normalizeArabicText (JString x).
Proof.
  intros Hnfc. rewrite !normalizeArabicText_string. f_equal.
  rewrite (normalizedString_unfold (normalizedString x)).
  destruct (normalizedString x) as [| c y] eqn:Ey; [reflexivity |].
  rewrite Hnfc, <- Ey.
  rewrite (normalizedString_unfold x).
  destruct x as [| d x]; [reflexivity |]. apply filter_twice.
Qed.

End Normalizer.

(** The claim C8 as worded fails here: NFC keeps alef, tatweel, hamza above
    apart; with the tatweel gone a second normalization composes alef and
    hamza into one letter. *)
Lemma normalization_not_idempotent :
  normalizeArabicText (host := arabicHost) (JString alef_tatweel_hamza)
    = JString [1575; 1620]
  /\ normalizeArabicText (host := arabicHost)
       (normalizeArabicText (host := arabicHost) (JString alef_tatweel_hamza))
     = JString [1571].
Proof. vm_compute. auto. Qed.

Lemma normalizeArabicText_idempotent_when_composed_witness :
  normalizeArabicText (host := arabicHost)
    (normalizeArabicText (host := arabicHost) (JString takhir_elongated))
  = normalizeArabicText (host := arabicHost) (JString takhir_elongated).
Proof.
  apply (normalizeArabicText_idempotent_when_composed (host := arabicHost)
           takhir_elongated).
  vm_compute. reflexivity.
Defined.

(** ** The watcher: watermark and duplicate suppression *)

Section WatcherPipeline.
Context {host : Host}.
Variable cfg : DetectionConfig.

Lemma cleanupOldHashes_frame (now : Z) (w : MessageWatcher) :
  startupTime (_cleanupOldHashes cfg now w) = startupTime w
  /\ onMessageDetected (_cleanupOldHashes cfg now w) = onMessageDetected w.
Proof.
  unfold _cleanupOldHashes.
  destruct (size (detectedHashes w) <=? MAX_HASH_CACHE_SIZE)%nat; auto.
Qed.



Lemma isDuplicate_frame (now now' : Z) (text : jsstring)
    (timestamp : option Z) (messageKey : option jsstring)
    (w : MessageWatcher) :
  startupTime (_isDuplicate cfg now now' text timestamp messageKey w).2
    = startupTime w
  /\ onMessageDetected
       (_isDuplicate cfg now now' text timestamp messageKey w).2
     = onMessageDetected w.
Proof.
  unfold _isDuplicate. cbv zeta.
  destruct (negb (enableDuplicateProtection cfg)); [auto |].
  destruct (_isHashRecent cfg w _ now); [auto |].
  destruct (truthyKey messageKey && _isHashRecent cfg w _ now); [auto |].
  cbn [snd]. destruct (truthyKey messageKey);
    split; (etrans; [apply cleanupOldHashes_frame | reflexivity]).
Qed.



(** What a run of handleMessage that raised a detection went through. *)
Lemma handleMessage_detects (r : Readings) (m : Message) (w : MessageWatcher) :
  detections (handleMessage cfg r m w).2 <> [] ->
  let checked := _isDuplicate cfg (now_duplicate r) (now_cleanup r)
                   (msg_text m) (msg_timestamp m) (msg_messageKey m) w in
  _isRecentMessage w (now_recent r) (msg_timestamp m) = true
  /\ checked.1 = false
  /\ truthy (_findMatchedKeyword cfg (msg_text m)) = true
  /\ _shouldFilterByChat cfg (chat_filter r) = false
  /\ onMessageDetected w = true
  /\ handleMessage cfg r m w
     = (set_startupTime (now_alarm r) checked.2,
        [Assign_startupTime (now_alarm r);
         Call_onMessageDetected
           {| md_keyword := _findMatchedKeyword cfg (msg_text m);
              md_text := msg_text m;
              md_chatName := chat_event r;
              md_timestamp := now_event r |}]).
Proof.
  unfold handleMessage. cbv zeta.
  destruct (negb (truthy (JString (msg_text m)))); [intros []; reflexivity |].
  destruct (_isRecentMessage w (now_recent r) (msg_timestamp m));
    [| intros []; reflexivity].
  pose proof (isDuplicate_frame (now_duplicate r) (now_cleanup r) (msg_text m)
                (msg_timestamp m) (msg_messageKey m) w) as [_ Hcb].
  destruct (_isDuplicate cfg _ _ _ _ _ w) as [dup w1]. cbn [fst snd] in *.
  destruct dup; [intros []; reflexivity |].
  destruct (truthy (_findMatchedKeyword cfg (msg_text m)));
    [| intros []; reflexivity].
  destruct (_shouldFilterByChat cfg (chat_filter r)); [intros []; reflexivity |].
  cbn [negb]. unfold _triggerAlarm. rewrite Hcb.
  destruct (onMessageDetected w); [| intros []; reflexivity].
  intros _. auto 10.
Qed.

(** handleMessage leaves the watermark alone or sets it to the reading of
    the clock in _triggerAlarm. *)
Lemma handleMessage_startupTime (r : Readings) (m : Message)
    (w : MessageWatcher) :
  startupTime (handleMessage cfg r m w).1 = startupTime w
  \/ startupTime (handleMessage cfg r m w).1 = now_alarm r.
Proof.
  unfold handleMessage. cbv zeta.
  destruct (negb (truthy (JString (msg_text m)))); [auto |].
  destruct (_isRecentMessage w (now_recent r) (msg_timestamp m)); [| auto].
  pose proof (isDuplicate_frame (now_duplicate r) (now_cleanup r) (msg_text m)
                (msg_timestamp m) (msg_messageKey m) w) as [Hst _].
  destruct (_isDuplicate cfg _ _ _ _ _ w) as [dup w1]. cbn [fst snd negb] in *.
  destruct dup; [auto |].
  destruct (truthy (_findMatchedKeyword cfg (msg_text m))); [| auto].
  destruct (_shouldFilterByChat cfg (chat_filter r)); [auto |].
  cbn [negb]. unfold _triggerAlarm. destruct (onMessageDetected w1); auto.
Qed.

End WatcherPipeline.

Section Watermark.
Context {host : Host}.
Variable cfg : DetectionConfig.

Lemma watcherStep_startupTime (T : Z) (c : WatcherCall) (w : MessageWatcher) :
  clockNotBefore T c -> T <= startupTime w ->
  T <= startupTime (watcherStep cfg c w).1.
Proof.
  destruct c as [r m | |]; cbn [watcherStep clockNotBefore fst]; intros Hc Hw.
  - destruct (handleMessage_startupTime cfg r m w) as [-> | ->]; lia.
  - exact Hw.
  - exact Hw.
Qed.

(** The watermark never falls back below the time of an alarm while the
    clock does not run backwards. *)
Lemma watcherRun_startupTime (T : Z) (cs : list WatcherCall)
    (w : MessageWatcher) :
  Forall (clockNotBefore T) cs -> T <= startupTime w ->
  T <= startupTime (watcherRun cfg cs w).1.
Proof.
  intros Hcs. revert w. induction Hcs as [| c cs Hc _ IH]; intros w Hw.
  - exact Hw.
  - cbn [watcherRun].
    pose proof (watcherStep_startupTime T c w Hc Hw) as Hstep.
    destruct (watcherStep cfg c w) as [w1 e1]. cbn [fst] in Hstep.
    specialize (IH w1 Hstep).
    destruct (watcherRun cfg cs w1) as [w2 e2]. exact IH.
Qed.

(** C1, as the code has it: when _triggerAlarm runs with a callback
    installed, the watermark is assigned the current time and then the
    callback is called.  From then on, whatever calls the watcher serves
    while the clock does not run backwards, the watermark is never below the
    time of the alarm; the recency filter rejects every timestamp below the
    watermark in force with the seconds and milliseconds of its local time
    cleared, and a message that triggers a detection has its timestamp at or
    after that.  Away from a clock change at the watermark in force, this
    bound is at or after the start of the minute in which the alarm fired:
    every timestamp before the start of that minute is rejected. *)
Theorem alarm_advances_watermark (T : Z) (d : MessageData)
    (w : MessageWatcher) :
  onMessageDetected w = true ->
  (_triggerAlarm T d w).2 = [Assign_startupTime T; Call_onMessageDetected d]
  /\ startupTime (_triggerAlarm T d w).1 = T
  /\ forall cs, Forall (clockNotBefore T) cs ->
       let later := (watcherRun cfg cs (_triggerAlarm T d w).1).1 in
       let bound := Date_setSeconds00 (startupTime later) in
       T <= startupTime later
       /\ (forall now t, t < bound ->
             _isRecentMessage later now (Some t) = false)
       /\ (forall r m,
             detections (handleMessage cfg r m later).2 <> [] ->
             exists t, msg_timestamp m = Some t /\ bound <= t)
       /\ (zoneSteadyAt (startupTime later) ->
           floorToMinute T <= bound
           /\ (forall now t, t < floorToMinute T ->
                 _isRecentMessage later now (Some t) = false)
           /\ (forall r m,
                 detections (handleMessage cfg r m later).2 <> [] ->
                 exists t, msg_timestamp m = Some t /\ floorToMinute T <= t)).
Proof.
  intros Hcb. unfold _triggerAlarm. rewrite Hcb. cbn [fst snd].
  split; [reflexivity |]. split; [reflexivity |].
  intros cs Hcs.
  set (later := (watcherRun cfg cs (set_startupTime T w)).1). cbv zeta.
  assert (Hmark : T <= startupTime later).
  { apply watcherRun_startupTime; [exact Hcs |]. cbn. lia. }
  assert (Hrej : forall now t, t < Date_setSeconds00 (startupTime later) ->
                 _isRecentMessage later now (Some t) = false).
  { intros now t Ht.
    destruct (_isRecentMessage later now (Some t)) eqn:E; [| reflexivity].
    apply isRecentMessage_spec in E as (t' & [= <-] & _ & _ & Hfl). lia. }
  assert (Hdet : forall r m,
             detections (handleMessage cfg r m later).2 <> [] ->
             exists t, msg_timestamp m = Some t
                       /\ Date_setSeconds00 (startupTime later) <= t).
  { intros r m Hdet.
    apply handleMessage_detects in Hdet as (Hrec & _).
    apply isRecentMessage_spec in Hrec as (t & Ht & _ & _ & Hfl).
    exists t. split; [exact Ht | exact Hfl]. }
  split; [exact Hmark |]. split; [exact Hrej |]. split; [exact Hdet |].
  intros Hsteady.
  assert (Hfloor : floorToMinute T <= Date_setSeconds00 (startupTime later)).
  { rewrite (Date_setSeconds00_floor _ Hsteady).
    apply floorToMinute_mono, Hmark. }
  split; [exact Hfloor |]. split.
  - intros now t Ht. apply Hrej. lia.
  - intros r m Hd. destruct (Hdet r m Hd) as (t & Ht & Hle).
    exists t. split; [exact Ht | lia].
Qed.

End Watermark.

(** The claim C1 as worded fails here: the alarm fires at 12:05:40.500Z for
    the sample message; a second message stamped 12:05:00.000Z, before the
    alarm, is then accepted by the recency filter and triggers the next
    detection. *)
Lemma earlier_message_triggers_next_alarm :
  let first := handleMessage (host := arabicHost) config
                 (readings 1769774740200 1769774740500 (lit "Mom"))
                 sampleMessage sampleWatcher in
  let second := handleMessage (host := arabicHost) config
                  (readings 1769774741000 1769774741200 (lit "Mom"))
                  secondMessage first.1 in
  startupTime first.1 = 1769774740500
  /\ msg_timestamp secondMessage = Some 1769774700000
  /\ (1769774700000 <=? 1769774740500) = true
  /\ _isRecentMessage (host := arabicHost) first.1 1769774741000
       (msg_timestamp secondMessage) = true
  /\ List.length (detections second.2) = 1%nat.
Proof. vm_compute. auto 10. Qed.

Lemma alarm_advances_watermark_witness :
  let later := (watcherRun (host := cairoHost) config
                  [Call_resetAfterAlarmStop;
                   Call_handleMessage
                     (readings 1769774741000 1769774741200 (lit "Mom"))
                     secondMessage]
                  (set_startupTime 1769774740500 sampleWatcher)).1 in
  _isRecentMessage (host := cairoHost) later 1769774800000
    (Some 1769774699999) = false.
Proof.
  cbv zeta.
  pose proof (alarm_advances_watermark (host := cairoHost) config
                1769774740500
                {| md_keyword := JString kw_alghiyab; md_text := sampleText;
                   md_chatName := lit "Mom"; md_timestamp := 1769774740500 |}
                sampleWatcher eq_refl) as (_ & _ & Hlater).
  specialize (Hlater
                [Call_resetAfterAlarmStop;
                 Call_handleMessage
                   (readings 1769774741000 1769774741200 (lit "Mom"))
                   secondMessage]
                ltac:(repeat constructor; vm_compute; discriminate)).
  cbv zeta in Hlater. destruct Hlater as (_ & _ & _ & Hsteady).
  destruct (Hsteady ltac:(split; vm_compute; reflexivity)) as (_ & Hrej & _).
  apply Hrej. vm_compute. reflexivity.
Defined.

(** Where the clocks go back the bound can fall below the start of the
    minute of an earlier alarm.  In Cairo, after an alarm at 20:59:30Z on 29
    October 2026, a detection at 21:00:10Z, in the second pass of the
    repeated hour, moves the watermark there, and a message stamped
    20:30:00Z is then accepted and raises a detection. *)
Lemma watermark_bound_falls_when_clocks_go_back :
  let T := 1793307570000 in
  let first := {| msg_text := sampleText;
                  msg_timestamp := Some 1793307540000;
                  msg_messageKey := Some (lit "id:msg-51") |} in
  let second := {| msg_text := text_takhir_alyawm;
                   msg_timestamp := Some 1793305800000;
                   msg_messageKey := Some (lit "id:msg-52") |} in
  let later := (watcherRun (host := cairoHost) config
                  [Call_handleMessage
                     (readings 1793307609000 1793307610000 (lit "Mom")) first]
                  (set_startupTime T sampleWatcher)).1 in
  startupTime later = 1793307610000
  /\ (1793305800000 <? floorToMinute T) = true
  /\ _isRecentMessage (host := cairoHost) later 1793307620000
       (msg_timestamp second) = true
  /\ List.length
       (detections
          (handleMessage (host := cairoHost) config
             (readings 1793307620000 1793307621000 (lit "Mom")) second
             later).2) = 1%nat.
Proof. vm_compute. auto. Qed.

Section DuplicateSuppression.
Context {host : Host}.
Variable cfg : DetectionConfig.




End DuplicateSuppression.



(** * Further properties *)

(** ** hashText *)

Section Hash.

Lemma ToInt32_mod (z : Z) : ToInt32 z mod 2 ^ 32 = z mod 2 ^ 32.
Proof.
  unfold ToInt32. cbv zeta.
  destruct (Z.leb_spec (2 ^ 31) (z mod 2 ^ 32)).
  - replace (z mod 2 ^ 32 - 2 ^ 32) with (z mod 2 ^ 32 + (-1) * 2 ^ 32) by lia.
    rewrite Z.mod_add by lia. apply Z.mod_mod. lia.
  - apply Z.mod_mod. lia.
Qed.

Lemma ToInt32_congr (a b : Z) :
  a mod 2 ^ 32 = b mod 2 ^ 32 -> ToInt32 a = ToInt32 b.
Proof. intros H. unfold ToInt32. rewrite H. reflexivity. Qed.

Lemma ToInt32_range (z : Z) : - 2 ^ 31 <= ToInt32 z < 2 ^ 31.
Proof.
  unfold ToInt32. cbv zeta. pose proof (Z.mod_pos_bound z (2 ^ 32)).
  destruct (Z.leb_spec (2 ^ 31) (z mod 2 ^ 32)); lia.
Qed.

Lemma ToInt32_small (z : Z) : - 2 ^ 31 <= z < 2 ^ 31 -> ToInt32 z = z.
Proof.
  intros Hz. unfold ToInt32. cbv zeta.
  destruct (Z.leb_spec (2 ^ 31) (z mod 2 ^ 32)) as [Hge | Hlt].
  - destruct (Z.lt_ge_cases z 0).
    + rewrite <- (Z.mod_add z 1 (2 ^ 32)) by lia.
      rewrite Z.mod_small by lia. lia.
    + rewrite Z.mod_small in Hge by lia. lia.
  - destruct (Z.lt_ge_cases z 0).
    + rewrite <- (Z.mod_add z 1 (2 ^ 32)) in Hlt by lia.
      rewrite Z.mod_small in Hlt by lia. lia.
    + apply Z.mod_small. lia.
Qed.

(** One turn of the loop multiplies by 31 and adds the code unit, with
    wrap-around. *)
Lemma hashStep_31 (hash char : Z) :
  hashStep hash char = ToInt32 (31 * hash + char).
Proof.
  unfold hashStep. apply ToInt32_congr.
  rewrite Z.add_mod, Zminus_mod, ToInt32_mod by lia.
  rewrite <- Zminus_mod, <- Z.add_mod by lia.
  f_equal. lia.
Qed.

Lemma poly31_congr (text : jsstring) (a b : Z) :
  a mod 2 ^ 32 = b mod 2 ^ 32 ->
  poly31 text a mod 2 ^ 32 = poly31 text b mod 2 ^ 32.
Proof.
  revert a b. unfold poly31.
  induction text as [| c text IH]; intros a b Hab; [exact Hab |].
  cbn [fold_left]. apply IH.
  rewrite (Z.add_mod (31 * a)), (Z.add_mod (31 * b)) by lia.
  rewrite (Z.mul_mod 31 a), (Z.mul_mod 31 b), Hab by lia. reflexivity.
Qed.

Lemma fold_hashStep_poly31 (text : jsstring) (h : Z) :
  fold_left hashStep text h mod 2 ^ 32 = poly31 text h mod 2 ^ 32.
Proof.
  revert h. induction text as [| c text IH]; intros h; [reflexivity |].
  cbn [fold_left]. rewrite IH. unfold poly31 at 2. cbn [fold_left].
  fold (poly31 text (31 * h + c)).
  apply poly31_congr. rewrite hashStep_31. apply ToInt32_mod.
Qed.

Lemma fold_hashStep_range (text : jsstring) (h : Z) :
  - 2 ^ 31 <= h < 2 ^ 31 ->
  - 2 ^ 31 <= fold_left hashStep text h < 2 ^ 31.
Proof.
  revert h. induction text as [| c text IH]; intros h Hh; [exact Hh |].
  cbn [fold_left]. apply IH. rewrite hashStep_31. apply ToInt32_range.
Qed.

Lemma fold_hashStep_closed (text : jsstring) :
  fold_left hashStep text 0 = ToInt32 (poly31 text 0).
Proof.
  rewrite <- (ToInt32_small (fold_left hashStep text 0))
    by (apply fold_hashStep_range; lia).
  apply ToInt32_congr, fold_hashStep_poly31.
Qed.

(** X1: the shift-and-subtract loop of hashText computes the value of the
    text in base 31 wrapped to a signed 32-bit integer; the fingerprint is
    the hexadecimal form of its absolute value, a number between 0 and
    2^31. *)
Theorem hashText_closed_form (text : jsstring) :
  hashText text = Number_toString16 (Z.abs (ToInt32 (poly31 text 0)))
  /\ 0 <= Z.abs (ToInt32 (poly31 text 0)) <= 2 ^ 31.
Proof.
  unfold hashText. rewrite fold_hashStep_closed. split; [reflexivity |].
  pose proof (ToInt32_range (poly31 text 0)). lia.
Qed.

Lemma poly31_app (x y : jsstring) (a : Z) :
  poly31 (x ++ y) a = poly31 y (poly31 x a).
Proof. unfold poly31. apply fold_left_app. Qed.

Lemma poly31_shift (x : jsstring) (a : Z) :
  poly31 x a = 31 ^ Z.of_nat (length x) * a + poly31 x 0.
Proof.
  revert a. induction x as [| c x IH]; intros a.
  - cbn. lia.
  - unfold poly31 in *. cbn [fold_left length].
    rewrite (IH (31 * a + c)), (IH (31 * 0 + c)).
    rewrite Nat2Z.inj_succ, Z.pow_succ_r by lia. ring.
Qed.

Lemma hashText_exchange (x y before after : jsstring) :
  length x = length y ->
  poly31 x 0 mod 2 ^ 32 = poly31 y 0 mod 2 ^ 32 ->
  hashText (before ++ x ++ after) = hashText (before ++ y ++ after).
Proof.
  intros Hlen Hval. unfold hashText. rewrite !fold_hashStep_closed.
  do 2 f_equal. apply ToInt32_congr.
  rewrite !poly31_app. apply poly31_congr.
  rewrite (poly31_shift x), (poly31_shift y), Hlen.
  rewrite Z.add_mod, Hval, <- Z.add_mod by lia. reflexivity.
Qed.

(** X2: two pieces of text of the same length with the same base-31 value
    modulo 2^32 can be exchanged anywhere inside a text without changing
    its fingerprint. *)
Theorem hashText_collision_in_context (x y before after : jsstring) :
  length x = length y ->
  poly31 x 0 mod 2 ^ 32 = poly31 y 0 mod 2 ^ 32 ->
  hashText (before ++ x ++ after) = hashText (before ++ y ++ after).
Proof. apply hashText_exchange. Qed.

End Hash.

Lemma hashText_collision_in_context_witness :
  hashText (sampleText ++ lit "Aa" ++ lit "|1769774700000")
  = hashText (sampleText ++ lit "BB" ++ lit "|1769774700000").
Proof.
  apply hashText_collision_in_context; [reflexivity | vm_compute; reflexivity].
Defined.

(** ** The duplicate cache: sweep, bound, cleanup *)

Section CacheExtras.
Variable cfg : DetectionConfig.

Lemma size_insert_le (m : gmap jsstring Z) (k : jsstring) (v : Z) :
  (size (<[k := v]> m) <= S (size m))%nat.
Proof. rewrite map_size_insert. destruct (m !! k); simpl; lia. Qed.

(** X3: _cleanupOldHashes leaves a cache of at most 1000 entries as it is;
    on a larger one it keeps exactly the entries that are at most the TTL
    old, so it never adds an entry, never changes a stored time and never
    removes an entry still within the TTL. *)
Theorem cleanupOldHashes_keeps_exactly (now : Z) (w : MessageWatcher) :
  (forall hash t,
     detectedHashes (_cleanupOldHashes cfg now w) !! hash = Some t
     <-> detectedHashes w !! hash = Some t
         /\ ((size (detectedHashes w) <= MAX_HASH_CACHE_SIZE)%nat
             \/ now - t <= duplicateCacheTTL cfg))
  /\ (size (detectedHashes (_cleanupOldHashes cfg now w))
      <= size (detectedHashes w))%nat.
Proof.
  unfold _cleanupOldHashes.
  destruct (Nat.leb_spec (size (detectedHashes w)) MAX_HASH_CACHE_SIZE)
    as [Hle | Hgt].
  - split; [| lia]. intros hash t. tauto.
  - cbn [detectedHashes set_detectedHashes]. split.
    + intros hash t. rewrite map_lookup_filter_Some. cbn. split.
      * intros [Hl Hage]. split; [exact Hl | right; lia].
      * intros [Hl [Hsmall | Hage]]; [lia |]. split; [exact Hl | lia].
    + apply map_subseteq_size, map_filter_subseteq.
Qed.

(** X4: a candidate found new adds at most two entries to the cache, and
    when the cache is then above 1000 entries every entry of it is at most
    the TTL old. *)
Theorem isDuplicate_cache_bound (w : MessageWatcher) (now now' : Z)
    (text : jsstring) (timestamp : option Z) (messageKey : option jsstring) :
  enableDuplicateProtection cfg = true ->
  (_isDuplicate cfg now now' text timestamp messageKey w).1 = false ->
  let after := (_isDuplicate cfg now now' text timestamp messageKey w).2 in
  (size (detectedHashes after) <= size (detectedHashes w) + 2)%nat
  /\ ((size (detectedHashes after) <= MAX_HASH_CACHE_SIZE)%nat
      \/ forall hash t, detectedHashes after !! hash = Some t ->
                        now' - t <= duplicateCacheTTL cfg).
Proof.
  intros Hen. unfold _isDuplicate. cbv zeta. rewrite Hen. cbn [negb].
  destruct (_isHashRecent cfg w _ now); [discriminate |].
  destruct (truthyKey messageKey && _isHashRecent cfg w _ now);
    [discriminate |].
  intros _. cbn [snd].
  match goal with |- context [_cleanupOldHashes cfg now' ?x] => set (w2 := x) end.
  assert (Hgrow : (size (detectedHashes w2) <= size (detectedHashes w) + 2)%nat).
  { subst w2. cbn [detectedHashes set_detectedHashes].
    pose proof (size_insert_le
                  (detectedHashes
                     (if truthyKey messageKey
                      then set_detectedHashes
                             (<[hashText (keyFingerprint text timestamp
                                            messageKey) := now]>
                                (detectedHashes w)) w
                      else w))
                  (hashText (fallbackFingerprint text timestamp)) now) as H1.
    destruct (truthyKey messageKey); cbn [detectedHashes set_detectedHashes] in *.
    - pose proof (size_insert_le (detectedHashes w)
                    (hashText (keyFingerprint text timestamp messageKey)) now).
      lia.
    - lia. }
  unfold _cleanupOldHashes.
  destruct (Nat.leb_spec (size (detectedHashes w2)) MAX_HASH_CACHE_SIZE)
    as [Hle | Hgt].
  - split; [exact Hgrow | left; exact Hle].
  - cbn [detectedHashes set_detectedHashes]. split.
    + etrans; [apply map_subseteq_size, map_filter_subseteq | exact Hgrow].
    + right. intros hash t. rewrite map_lookup_filter_Some. cbn. lia.
Qed.

(** X5: cleanup empties the cache and marks the watcher inactive, keeps the
    watermark and the callback, and is idempotent; after it no candidate is
    found to be a duplicate. *)
Theorem cleanup_forgets (w : MessageWatcher) :
  cleanup (cleanup w) = cleanup w
  /\ detectedHashes (cleanup w) = ∅
  /\ observerActive (cleanup w) = false
  /\ startupTime (cleanup w) = startupTime w
  /\ onMessageDetected (cleanup w) = onMessageDetected w
  /\ forall now now' text timestamp messageKey,
       (_isDuplicate cfg now now' text timestamp messageKey (cleanup w)).1
       = false.
Proof.
  repeat (split; [reflexivity |]).
  intros now now' text timestamp messageKey.
  rewrite isDuplicate_verdict. unfold _isHashRecent.
  cbn [detectedHashes cleanup set_detectedHashes]. rewrite !lookup_empty.
  destruct (enableDuplicateProtection cfg), (truthyKey messageKey); reflexivity.
Qed.

End CacheExtras.

Lemma isDuplicate_cache_bound_witness :
  let after := (_isDuplicate config 1769774759800 1769774759800
                  (msg_text sampleMessage) (msg_timestamp sampleMessage)
                  (msg_messageKey sampleMessage) sampleWatcher).2 in
  (size (detectedHashes after) <= size (detectedHashes sampleWatcher) + 2)%nat.
Proof.
  cbv zeta.
  apply (isDuplicate_cache_bound config sampleWatcher 1769774759800
           1769774759800 (msg_text sampleMessage)
           (msg_timestamp sampleMessage) (msg_messageKey sampleMessage));
    vm_compute; reflexivity.
Defined.

(** ** handleMessage: what it changes, what it reports, what it records *)

Section HandleMessageExtras.
Context {host : Host}.
Variable cfg : DetectionConfig.

Lemma cleanupOldHashes_observerActive (now : Z) (b : bool)
    (w : MessageWatcher) :
  _cleanupOldHashes cfg now (set_observerActive b w)
  = set_observerActive b (_cleanupOldHashes cfg now w).
Proof.
  unfold _cleanupOldHashes. cbn [detectedHashes set_observerActive].
  destruct (size (detectedHashes w) <=? MAX_HASH_CACHE_SIZE)%nat; reflexivity.
Qed.

Lemma isDuplicate_observerActive (now now' : Z) (text : jsstring)
    (timestamp : option Z) (messageKey : option jsstring) (b : bool)
    (w : MessageWatcher) :
  _isDuplicate cfg now now' text timestamp messageKey (set_observerActive b w)
  = ((_isDuplicate cfg now now' text timestamp messageKey w).1,
     set_observerActive b
       (_isDuplicate cfg now now' text timestamp messageKey w).2).
Proof.
  unfold _isDuplicate. cbv zeta.
  change (_isHashRecent cfg (set_observerActive b w))
    with (_isHashRecent cfg w).
  destruct (negb (enableDuplicateProtection cfg)); [reflexivity |].
  destruct (_isHashRecent cfg w _ now); [reflexivity |].
  destruct (truthyKey messageKey) eqn:Ekey; cbn [andb].
  - destruct (_isHashRecent cfg w _ now); [reflexivity |].
    cbn [fst snd]. f_equal.
    rewrite <- cleanupOldHashes_observerActive. reflexivity.
  - cbn [fst snd]. f_equal.
    rewrite <- cleanupOldHashes_observerActive. reflexivity.
Qed.

(** X6: handleMessage never looks at observerActive: on a watcher marked
    inactive, as cleanup leaves it, it does exactly what it does on the
    active one and raises the same detections. *)
Theorem handleMessage_ignores_observerActive (r : Readings) (m : Message)
    (b : bool) (w : MessageWatcher) :
  handleMessage cfg r m (set_observerActive b w)
  = (set_observerActive b (handleMessage cfg r m w).1,
     (handleMessage cfg r m w).2).
Proof.
  unfold handleMessage. cbv zeta.
  destruct (negb (truthy (JString (msg_text m)))); [reflexivity |].
  change (_isRecentMessage (set_observerActive b w) (now_recent r)
            (msg_timestamp m))
    with (_isRecentMessage w (now_recent r) (msg_timestamp m)).
  destruct (negb (_isRecentMessage w (now_recent r) (msg_timestamp m)));
    [reflexivity |].
  rewrite isDuplicate_observerActive.
  destruct (_isDuplicate cfg _ _ _ _ _ w) as [dup w1]. cbn [fst snd].
  destruct dup; [reflexivity |].
  destruct (negb (truthy (_findMatchedKeyword cfg (msg_text m))));
    [reflexivity |].
  destruct (_shouldFilterByChat cfg (chat_filter r)); [reflexivity |].
  unfold _triggerAlarm. cbn [onMessageDetected set_observerActive].
  destruct (onMessageDetected w1); reflexivity.
Qed.

Lemma isDuplicate_observerActive_frame (now now' : Z) (text : jsstring)
    (timestamp : option Z) (messageKey : option jsstring)
    (w : MessageWatcher) :
  observerActive (_isDuplicate cfg now now' text timestamp messageKey w).2
  = observerActive w.
Proof.
  unfold _isDuplicate. cbv zeta.
  destruct (negb (enableDuplicateProtection cfg)); [reflexivity |].
  destruct (_isHashRecent cfg w _ now); [reflexivity |].
  destruct (truthyKey messageKey && _isHashRecent cfg w _ now); [reflexivity |].
  cbn [snd]. unfold _cleanupOldHashes.
  destruct (truthyKey messageKey);
    match goal with |- context [if ?c then _ else _] => destruct c end;
    reflexivity.
Qed.

Lemma findMatchedKeyword_truthy (text : jsstring) :
  truthy (_findMatchedKeyword cfg text) = true ->
  In (_findMatchedKeyword cfg text) (keywords cfg)
  /\ tryKeyword cfg text (_findMatchedKeyword cfg text) = Return true.
Proof.
  unfold _findMatchedKeyword.
  destruct (findLoop cfg text (keywords cfg)) as [v | e] eqn:E; cbn [try_catch].
  - intros Hv. destruct (findLoop_returns cfg text _ v E) as [-> | H];
      [discriminate | exact H].
  - discriminate.
Qed.

(** X7: whatever the message, handleMessage leaves the callback and the
    active flag alone and does one of two things: nothing observable, with
    the watermark unchanged; or one assignment of the watermark to the
    current time followed by one call of the callback, whose keyword is a
    configured keyword that matched the text and whose text is the text of
    the message. *)
Theorem handleMessage_effects (r : Readings) (m : Message)
    (w : MessageWatcher) :
  onMessageDetected (handleMessage cfg r m w).1 = onMessageDetected w
  /\ observerActive (handleMessage cfg r m w).1 = observerActive w
  /\ (((handleMessage cfg r m w).2 = []
       /\ startupTime (handleMessage cfg r m w).1 = startupTime w)
      \/ exists keyword,
           (handleMessage cfg r m w).2
           = [Assign_startupTime (now_alarm r);
              Call_onMessageDetected
                {| md_keyword := keyword; md_text := msg_text m;
                   md_chatName := chat_event r;
                   md_timestamp := now_event r |}]
           /\ In keyword (keywords cfg)
           /\ truthy keyword = true
           /\ tryKeyword cfg (msg_text m) keyword = Return true
           /\ startupTime (handleMessage cfg r m w).1 = now_alarm r).
Proof.
  unfold handleMessage. cbv zeta.
  destruct (negb (truthy (JString (msg_text m))));
    [split; [| split; [| left; split]]; reflexivity |].
  destruct (negb (_isRecentMessage w (now_recent r) (msg_timestamp m)));
    [split; [| split; [| left; split]]; reflexivity |].
  pose proof (isDuplicate_frame cfg (now_duplicate r) (now_cleanup r)
                (msg_text m) (msg_timestamp m) (msg_messageKey m) w)
    as [Hst Hcb].
  pose proof (isDuplicate_observerActive_frame (now_duplicate r)
                (now_cleanup r) (msg_text m) (msg_timestamp m)
                (msg_messageKey m) w) as Hact.
  destruct (_isDuplicate cfg _ _ _ _ _ w) as [dup w1]. cbn [fst snd] in *.
  assert (Hquiet : onMessageDetected w1 = onMessageDetected w
                   /\ observerActive w1 = observerActive w
                   /\ ((@nil Effect = [] /\ startupTime w1 = startupTime w)
                       \/ exists keyword,
                            @nil Effect
                            = [Assign_startupTime (now_alarm r);
                               Call_onMessageDetected
                                 {| md_keyword := keyword;
                                    md_text := msg_text m;
                                    md_chatName := chat_event r;
                                    md_timestamp := now_event r |}]
                            /\ In keyword (keywords cfg)
                            /\ truthy keyword = true
                            /\ tryKeyword cfg (msg_text m) keyword
                               = Return true
                            /\ startupTime w1 = now_alarm r)).
  { split; [exact Hcb |]. split; [exact Hact |]. left. split;
      [reflexivity | exact Hst]. }
  destruct dup; [exact Hquiet |].
  destruct (truthy (_findMatchedKeyword cfg (msg_text m))) eqn:Ekw;
    cbn [negb]; [| exact Hquiet].
  destruct (_shouldFilterByChat cfg (chat_filter r)); [exact Hquiet |].
  unfold _triggerAlarm.
  destruct (onMessageDetected w1) eqn:Ecb1; cbn [fst snd];
    [| rewrite <- Ecb1 in Hquiet; exact Hquiet].
  split; [cbn; congruence |]. split; [exact Hact |]. right.
  exists (_findMatchedKeyword cfg (msg_text m)).
  destruct (findMatchedKeyword_truthy _ Ekw) as [Hin Hm].
  split; [reflexivity |]. split; [exact Hin |]. split; [exact Ekw |].
  split; [exact Hm | reflexivity].
Qed.





End HandleMessageExtras.



(** ** matchKeywords on a whole list, and keywords that vanish *)

Section MatcherExtras.
Context {host : Host}.
Variable cfg : DetectionConfig.

Lemma matchLoop_strings (text : jsstring) (ks : list jsstring) :
  matchLoop (caseSensitive cfg) (wholeWordMatch cfg)
    (JString (searchForm (caseSensitive cfg) text))
    (List.map normalizeArabicText (List.map JString ks))
  = Return (existsb (matchesb cfg text) ks).
Proof.
  induction ks as [| k ks IH]; [reflexivity |].
  cbn [List.map matchLoop existsb]. rewrite normalizeArabicText_string.
  unfold matchesb at 1. unfold searchForm at 1 3. cbv zeta.
  destruct (caseSensitive cfg) eqn:Ecs, (wholeWordMatch cfg) eqn:Eww;
    cbn [toLowerCase mbind completion_bind escapeRegex includes_call ToString];
    unfold wordRegex_test; rewrite ?patternLiteral_escape; cbn [ToString];
    unfold searchForm in IH |- *; rewrite ?Ecs in *;
    match goal with |- context [if ?b then Return true else _] => destruct b end;
    first [reflexivity | exact IH].
Qed.

Lemma matchKeywords_strings (text : jsstring) (ks : list jsstring) :
  text <> [] ->
  matchKeywords (JString text) (List.map JString ks)
    (caseSensitive cfg) (wholeWordMatch cfg)
  = Return (existsb (matchesb cfg text) ks).
Proof.
  intros Hne. unfold matchKeywords. cbv zeta.
  destruct text as [| c text]; [congruence |]. cbn [truthy negb orb].
  destruct ks as [| k ks]; [reflexivity |].
  cbn [List.map]. rewrite (normalizeArabicText_string (c :: text)).
  pose proof (matchLoop_strings (c :: text) (k :: ks)) as Hloop.
  cbn [List.map] in Hloop. unfold searchForm in Hloop.
  destruct (caseSensitive cfg); cbn [toLowerCase mbind completion_bind];
    exact Hloop.
Qed.

(** X10: on a non-empty text and a list of keyword strings, one call of
    matchKeywords on the whole list does not fail and answers true exactly
    when some keyword of the list matches the text under the matching
    policy, which is exactly when the keyword-by-keyword search of the
    watcher returns a keyword. *)
Theorem matchKeywords_any (text : jsstring) (ks : list jsstring) :
  text <> [] ->
  keywords cfg = List.map JString ks ->
  let answer := matchKeywords (JString text) (keywords cfg)
                  (caseSensitive cfg) (wholeWordMatch cfg) in
  (answer = Return true \/ answer = Return false)
  /\ (answer = Return true <-> exists k, In k ks /\ Matches cfg text k)
  /\ (answer = Return true <-> _findMatchedKeyword cfg text <> JNull).
Proof.
  intros Hne Hks. cbv zeta. rewrite Hks, (matchKeywords_strings text ks Hne).
  assert (Hex : existsb (matchesb cfg text) ks = true
                <-> exists k, In k ks /\ Matches cfg text k).
  { rewrite existsb_exists. split; intros (k & Hin & Hk); exists k;
      (split; [exact Hin | apply matchesb_spec; exact Hk]). }
  split; [destruct (existsb _ ks); auto |]. split.
  - rewrite <- Hex. split; [intros [= ->]; reflexivity | intros ->; reflexivity].
  - unfold _findMatchedKeyword. rewrite Hks, (findLoop_strings cfg text ks Hne).
    cbn [try_catch].
    destruct (List.find (matchesb cfg text) ks) as [k |] eqn:E.
    + apply find_some in E as [Hin Hm].
      assert (Htrue : existsb (matchesb cfg text) ks = true)
        by (apply existsb_exists; eauto).
      rewrite Htrue. split; [discriminate | reflexivity].
    + assert (Hfalse : existsb (matchesb cfg text) ks = false).
      { destruct (existsb _ ks) eqn:Eex; [| reflexivity].
        apply existsb_exists in Eex as (k & Hin & Hm).
        rewrite (find_none _ _ E k Hin) in Hm. discriminate. }
      rewrite Hfalse. split; [discriminate | congruence].
Qed.

Lemma includes_nil (s : jsstring) : includes s [] = true.
Proof. destruct s; reflexivity. Qed.

Lemma tryKeyword_vanishing (text keyword : jsstring) :
  wholeWordMatch cfg = false ->
  normalizedString keyword = [] ->
  caseSensitive cfg = true \/ String_toLowerCase [] = [] ->
  text <> [] ->
  tryKeyword cfg text (JString keyword) = Return true.
Proof.
  intros Hww Hk Hlow Hne. unfold tryKeyword.
  rewrite (matchKeywords_string cfg text keyword Hne). f_equal.
  unfold matchesb. cbv zeta. rewrite Hww. unfold searchForm. rewrite Hk.
  destruct Hlow as [-> | Hlow].
  - apply includes_nil.
  - destruct (caseSensitive cfg); rewrite ?Hlow; apply includes_nil.
Qed.

(** X11: with substring matching, a keyword that normalization reduces to
    the empty string (it is empty, or made of tatweels, zero-width marks
    and soft hyphens only) matches every non-empty text; placed first in
    the list it is what the search returns for every message. *)
Theorem vanishing_keyword_matches_everything (text keyword : jsstring)
    (rest : list jsval) :
  wholeWordMatch cfg = false ->
  normalizedString keyword = [] ->
  caseSensitive cfg = true \/ String_toLowerCase [] = [] ->
  keywords cfg = JString keyword :: rest ->
  text <> [] ->
  tryKeyword cfg text (JString keyword) = Return true
  /\ _findMatchedKeyword cfg text = JString keyword.
Proof.
  intros Hww Hk Hlow Hks Hne.
  pose proof (tryKeyword_vanishing text keyword Hww Hk Hlow Hne) as Hhit.
  split; [exact Hhit |].
  unfold _findMatchedKeyword. rewrite Hks, (findLoop_hit cfg text _ rest Hhit).
  reflexivity.
Qed.

(** X12: with substring matching, an empty string at the head of the
    keyword list silences the watcher: the search returns it for every
    message, handleMessage takes the empty string for "no match", and no
    message ever raises a detection. *)
Theorem empty_keyword_silences (r : Readings) (m : Message)
    (w : MessageWatcher) (rest : list jsval) :
  wholeWordMatch cfg = false ->
  caseSensitive cfg = true \/ String_toLowerCase [] = [] ->
  keywords cfg = JString [] :: rest ->
  (handleMessage cfg r m w).2 = [].
Proof.
  intros Hww Hlow Hks. unfold handleMessage. cbv zeta.
  destruct (msg_text m) as [| c text] eqn:Et; [reflexivity |].
  cbn [truthy negb].
  destruct (negb (_isRecentMessage w (now_recent r) (msg_timestamp m)));
    [reflexivity |].
  destruct (_isDuplicate cfg _ _ _ _ _ w) as [dup w1].
  destruct dup; [reflexivity |].
  assert (Hfound : _findMatchedKeyword cfg (c :: text) = JString []).
  { unfold _findMatchedKeyword. rewrite Hks.
    rewrite (findLoop_hit cfg (c :: text) (JString []) rest); [reflexivity |].
    apply tryKeyword_vanishing; [exact Hww | | exact Hlow | discriminate].
    rewrite normalizedString_unfold. reflexivity. }
  rewrite Hfound. reflexivity.
Qed.

End MatcherExtras.

Lemma matchKeywords_any_witness :
  matchKeywords (host := arabicHost) (JString sampleText) (keywords config)
    (caseSensitive config) (wholeWordMatch config) = Return true.
Proof.
  apply (proj1 (proj2 (matchKeywords_any (host := arabicHost) config
                         sampleText
                         [kw_alghiyab; kw_takhir; kw_ghiyab; kw_taakhkhar;
                          kw_ghab]
                         ltac:(discriminate) eq_refl))).
  exists kw_alghiyab. split; [left; reflexivity |].
  apply matchesb_spec. vm_compute. reflexivity.
Defined.

Lemma vanishing_keyword_matches_everything_witness :
  _findMatchedKeyword (host := arabicHost) vanishingKeywordConfig
    text_mutaakhira = JString [1600].
Proof.
  apply (vanishing_keyword_matches_everything (host := arabicHost)
           vanishingKeywordConfig text_mutaakhira [1600]
           [JString kw_alghiyab]);
    [reflexivity | vm_compute; reflexivity | right; reflexivity
     | reflexivity | discriminate].
Defined.

Lemma empty_keyword_silences_witness :
  (handleMessage (host := arabicHost) emptyKeywordConfig
     (readings 1769774740200 1769774740500 (lit "Mom"))
     sampleMessage sampleWatcher).2 = [].
Proof.
  apply (empty_keyword_silences (host := arabicHost) emptyKeywordConfig
           (readings 1769774740200 1769774740500 (lit "Mom"))
           sampleMessage sampleWatcher (keywords config));
    [reflexivity | right; reflexivity | reflexivity].
Defined.

(** ** normalizeArabicText: what is left in the result *)

Section NormalizerExtras.
Context {host : Host}.

(** X13: on a string, normalizeArabicText returns a string obtained from
    the NFC form by deleting characters only, and none of the deleted
    characters (tatweel, U+200B to U+200F, soft hyphen) is left in it; on a
    value that is not a string it returns the empty string when the value
    is falsy and the value itself otherwise. *)
Theorem normalizeArabicText_strips :
  (forall s : jsstring,
     normalizeArabicText (JString s) = JString (normalizedString s)
     /\ normalizedString s `sublist_of` String_normalize_NFC s
     /\ Forall (fun c => c <> 1600 /\ ~ (8203 <= c <= 8207) /\ c <> 173)
          (normalizedString s))
  /\ (forall v : jsval,
        (forall s, v <> JString s) ->
        normalizeArabicText v = if truthy v then v else JString []).
Proof.
  split.
  - intros s. split; [apply normalizeArabicText_string |].
    rewrite normalizedString_unfold. destruct s as [| c s].
    + split; [apply sublist_nil_l | constructor].
    + set (n := String_normalize_NFC (c :: s)). clearbody n. split.
      * induction n as [| d n IH]; cbn [List.filter]; [constructor |].
        destruct (keptByNormalization d);
          [apply sublist_skip | apply sublist_cons]; exact IH.
      * apply List.Forall_forall. intros d Hd.
        apply filter_In in Hd as [_ Hd].
        unfold keptByNormalization, isTatweel, isZeroWidth, isSoftHyphen in Hd.
        rewrite !andb_true_iff, !negb_true_iff in Hd.
        destruct Hd as [[Ht Hz] Hs].
        apply Z.eqb_neq in Ht, Hs. apply andb_false_iff in Hz.
        repeat split; try assumption.
        intros [Hlo Hhi]. destruct Hz as [Hz | Hz];
          [apply Z.leb_gt in Hz | apply Z.leb_gt in Hz]; lia.
  - intros v Hns. destruct v as [| | [|] | n | s]; try reflexivity.
    + unfold normalizeArabicText. cbn [truthy].
      destruct (negb (n =? 0)); reflexivity.
    + destruct (Hns s eq_refl).
Qed.

End NormalizerExtras.

(** ** The chat filters and the chat name *)

Section ChatExtras.
Context {host : Host}.
Variable cfg : DetectionConfig.

(** X14: the chat filter of the watcher.  Disabled, it allows every chat
    and filters nothing.  Enabled in whitelist mode it allows exactly the
    chat names that are entries of the whitelist, compared as they are
    (case and spaces included), and _shouldFilterByChat is its negation. *)
Theorem isChatAllowed_whitelist_exact (chatName : jsstring) :
  (enabled (chatFilter cfg) = false ->
     _isChatAllowed cfg chatName = true
     /\ _shouldFilterByChat cfg chatName = false)
  /\ (enabled (chatFilter cfg) = true ->
      mode (chatFilter cfg) = lit "whitelist" ->
      (_isChatAllowed cfg chatName = true
       <-> In chatName (whitelistedChats (chatFilter cfg)))
      /\ _shouldFilterByChat cfg chatName
         = negb (_isChatAllowed cfg chatName)).
Proof.
  unfold _shouldFilterByChat, _isChatAllowed. cbv zeta. split.
  - intros ->. auto.
  - intros -> ->. cbn [negb]. rewrite bool_decide_eq_true_2 by reflexivity.
    split.
    + rewrite existsb_exists. split.
      * intros (a & Hin & Ha). apply bool_decide_eq_true in Ha. congruence.
      * intros Hin. exists chatName. split; [exact Hin |].
        apply bool_decide_eq_true. reflexivity.
    + destruct (existsb _ _); reflexivity.
Qed.

Lemma includes_refl (s : jsstring) : includes s s = true.
Proof. apply includes_spec. exists [], []. rewrite app_nil_r. reflexivity. Qed.

(** X15: the whitelist of the earlier watcher is the permissive one: a chat
    is allowed exactly when its lower-cased name contains the lower-cased
    form of some entry, so every chat that the exact whitelist of the later
    watcher allows is allowed by it as well. *)
Theorem whitelist_permissive (chatName : jsstring) :
  enabled (chatFilter cfg) = true ->
  mode (chatFilter cfg) = lit "whitelist" ->
  (isChatAllowed cfg chatName = true
   <-> exists allowed,
         In allowed (whitelistedChats (chatFilter cfg))
         /\ Contains (String_toLowerCase chatName)
              (String_toLowerCase allowed))
  /\ (_isChatAllowed cfg chatName = true ->
      isChatAllowed cfg chatName = true).
Proof.
  intros Hen Hmode.
  assert (Hiff : isChatAllowed cfg chatName = true
                 <-> exists allowed,
                       In allowed (whitelistedChats (chatFilter cfg))
                       /\ Contains (String_toLowerCase chatName)
                            (String_toLowerCase allowed)).
  { unfold isChatAllowed. cbv zeta. rewrite Hen, Hmode. cbn [negb].
    rewrite bool_decide_eq_true_2 by reflexivity. rewrite existsb_exists.
    split; intros (a & Hin & Ha); exists a;
      (split; [exact Hin | apply includes_spec; exact Ha]). }
  split; [exact Hiff |].
  intros Hstrict. apply Hiff.
  unfold _isChatAllowed in Hstrict. cbv zeta in Hstrict.
  rewrite Hen, Hmode in Hstrict. cbn [negb] in Hstrict.
  rewrite bool_decide_eq_true_2 in Hstrict by reflexivity.
  apply existsb_exists in Hstrict as (a & Hin & Ha).
  apply bool_decide_eq_true in Ha. subst a.
  exists chatName. split; [exact Hin |]. apply includes_spec, includes_refl.
Qed.

End ChatExtras.

Lemma isChatAllowed_whitelist_exact_witness :
  _isChatAllowed whitelistConfig (lit "Mom") = true
  /\ _shouldFilterByChat whitelistConfig (lit "Mom") = false.
Proof.
  destruct (proj2 (isChatAllowed_whitelist_exact whitelistConfig (lit "Mom"))
              eq_refl eq_refl) as [Hiff Hneg].
  assert (H : _isChatAllowed whitelistConfig (lit "Mom") = true)
    by (apply Hiff; left; reflexivity).
  split; [exact H |]. rewrite Hneg, H. reflexivity.
Defined.

Lemma whitelist_permissive_witness :
  isChatAllowed (host := arabicHost) whitelistConfig (lit "Mom") = true.
Proof.
  apply (proj2 (whitelist_permissive (host := arabicHost) whitelistConfig
                  (lit "Mom") eq_refl eq_refl)).
  vm_compute. reflexivity.
Defined.

Section ChatNameExtras.

Lemma or_else_nonempty (a : option jsstring) (b : jsstring) :
  b <> [] -> or_else a b <> [].
Proof.
  intros Hb. unfold or_else.
  destruct a as [[| c a] |]; cbn; [exact Hb | discriminate | exact Hb].
Qed.

Lemma firstFound_skip (before : list (option HeaderElement))
    (rest : list (option HeaderElement)) :
  Forall (fun e => e = None) before ->
  firstFound (before ++ rest) = firstFound rest.
Proof. induction 1 as [| e before -> _ IH]; [reflexivity | exact IH]. Qed.

(** X16: _getCurrentChatName never returns the empty string; it returns
    "Unknown" when the page cannot be evaluated or no selector finds an
    element; and only the first element found counts, whatever the later
    selectors would find: the result is its text, trimmed, when that is not
    empty; otherwise its title as it is, not trimmed, when it has a
    non-empty one; otherwise "Unknown". *)
Theorem getCurrentChatName_never_empty (evaluateThrows : bool)
    (found : list (option HeaderElement)) :
  _getCurrentChatName evaluateThrows found <> []
  /\ (evaluateThrows = true \/ Forall (fun e => e = None) found ->
      _getCurrentChatName evaluateThrows found = lit "Unknown")
  /\ (forall before element after,
        found = before ++ Some element :: after ->
        Forall (fun e => e = None) before ->
        (forall text,
           header_textContent element = Some text -> trim text <> [] ->
           _getCurrentChatName false found = trim text)
        /\ ((forall text,
               header_textContent element = Some text -> trim text = []) ->
            (forall title,
               header_title element = Some title -> title <> [] ->
               _getCurrentChatName false found = title)
            /\ ((forall title,
                   header_title element = Some title -> title = []) ->
                _getCurrentChatName false found = lit "Unknown"))).
Proof.
  split; [| split].
  - unfold _getCurrentChatName. destruct evaluateThrows; [discriminate |].
    destruct (firstFound found); [| discriminate].
    apply or_else_nonempty, or_else_nonempty. discriminate.
  - intros [-> | Hnone]; [reflexivity |].
    unfold _getCurrentChatName. destruct evaluateThrows; [reflexivity |].
    rewrite <- (app_nil_r found), (firstFound_skip found [] Hnone).
    reflexivity.
  - intros before element after -> Hnone. unfold _getCurrentChatName.
    rewrite (firstFound_skip before _ Hnone). cbn [firstFound].
    destruct element as [text title]. cbn [header_textContent header_title].
    split.
    + intros t [= ->] Ht. cbn [fmap option_fmap option_map]. unfold or_else at 1.
      cbn [truthyKey keyString]. destruct (trim t); [congruence | reflexivity].
    + intros Hblank.
      assert (Htext : forall b, or_else (trim <$> text) b = b).
      { intros b. destruct text as [t |]; [| reflexivity].
        cbn [fmap option_fmap option_map]. rewrite (Hblank t eq_refl).
        reflexivity. }
      rewrite Htext. split.
      * intros t [= ->] Ht. unfold or_else. cbn [truthyKey keyString].
        destruct t; [congruence | reflexivity].
      * intros Hnotitle. destruct title as [t |]; [| reflexivity].
        rewrite (Hnotitle t eq_refl). reflexivity.
Qed.

Lemma getCurrentChatName_never_empty_witness :
  _getCurrentChatName false
    [None; Some {| header_textContent := Some (lit "  ");
                   header_title := Some (lit " ") |};
     Some {| header_textContent := Some (lit "Family");
             header_title := None |}]
  = lit " ".
Proof.
  pose proof (getCurrentChatName_never_empty false
                [None; Some {| header_textContent := Some (lit "  ");
                               header_title := Some (lit " ") |};
                 Some {| header_textContent := Some (lit "Family");
                         header_title := None |}]) as (_ & _ & Hfirst).
  destruct (Hfirst [None] _ _ eq_refl ltac:(repeat constructor))
    as (_ & Hblank).
  destruct (Hblank ltac:(intros text [= <-]; reflexivity)) as (Htitle & _).
  apply Htitle; [reflexivity | discriminate].
Defined.

End ChatNameExtras.

(** ** utils/powershellHelper.js *)

Section PowerShell.

Lemma escapePowerShellPath_cons (c : Z) (path : jsstring) :
  escapePowerShellPath (c :: path)
  = (if c =? 92 then [92; 92] else [c]) ++ escapePowerShellPath path.
Proof. reflexivity. Qed.

(** X17: escapePowerShellPath doubles every backslash and changes nothing
    else, so two different paths never have the same escaped form, and a
    path without a backslash is returned as it is. *)
Theorem escapePowerShellPath_injective (p q : jsstring) :
  (escapePowerShellPath p = escapePowerShellPath q -> p = q)
  /\ (Forall (fun c => c <> 92) p -> escapePowerShellPath p = p)
  /\ length (escapePowerShellPath p)
     = (length p + length (List.filter (Z.eqb 92) p))%nat.
Proof.
  split; [| split].
  - revert q. induction p as [| c p IH]; intros q.
    + destruct q as [| d q]; [reflexivity |].
      rewrite escapePowerShellPath_cons. destruct (d =? 92); discriminate.
    + destruct q as [| d q].
      * rewrite escapePowerShellPath_cons. destruct (c =? 92); discriminate.
      * rewrite !escapePowerShellPath_cons.
        destruct (Z.eqb_spec c 92) as [-> | Hc],
                 (Z.eqb_spec d 92) as [-> | Hd]; cbn [app].
        -- intros [= H]. f_equal. apply IH, H.
        -- intros [= <- H]. congruence.
        -- intros [= -> H]. congruence.
        -- intros [= -> H]. f_equal. apply IH, H.
  - induction 1 as [| c p Hc _ IH]; [reflexivity |].
    rewrite escapePowerShellPath_cons.
    destruct (Z.eqb_spec c 92); [congruence |]. cbn [app]. f_equal. exact IH.
  - induction p as [| c p IH]; [reflexivity |].
    rewrite escapePowerShellPath_cons, length_app, IH. cbn [List.filter].
    rewrite (Z.eqb_sym 92 c). destruct (c =? 92); cbn [length]; lia.
Qed.

End PowerShell.

(** ** The in-page observer: identity keys and the queue *)

Section PageExtras.

Lemma extractMessageKey_nonempty (c : Container) (text : jsstring) :
  truthy (JString (extractMessageKey c text)) = true.
Proof.
  unfold extractMessageKey.
  destruct (truthyKey (dataId c)); [reflexivity |].
  destruct (truthyKey (closestDataId c)); [reflexivity |].
  destruct (truthyKey (timeText c)); [reflexivity |].
  destruct (truthyNumber (timeFallback c)); reflexivity.
Qed.

(** X18: extractMessageKey never returns an empty key, so the dedupe key of
    processNode always has the form key, timestamp, text and the form
    without a key is never used; and when the container carries a data-id
    the key is "id:" followed by it, whatever the text and the time are. *)
Theorem extractMessageKey_total (c : Container) (text : jsstring)
    (timestamp : option Z) :
  extractMessageKey c text <> []
  /\ dedupeKey (extractMessageKey c text) timestamp text
     = extractMessageKey c text ++ lit "|" ++ nullish_empty timestamp
         ++ lit "|" ++ text
  /\ (forall id, dataId c = Some id -> id <> [] ->
        extractMessageKey c text = lit "id:" ++ id).
Proof.
  pose proof (extractMessageKey_nonempty c text) as Hk.
  split; [| split].
  - intros Hnil. rewrite Hnil in Hk. discriminate.
  - unfold dedupeKey. rewrite Hk. reflexivity.
  - intros id Hid Hne. unfold extractMessageKey. rewrite Hid.
    destruct id as [| d id]; [congruence | reflexivity].
Qed.

Lemma candidate_wellFormed (node : Node) (message : Message)
    (key : jsstring) :
  candidate node = Some (message, key) ->
  (MIN_MESSAGE_LENGTH < length (msg_text message))%nat
  /\ truthyKey (msg_messageKey message) = true
  /\ key = messageDedupeKey message.
Proof.
  unfold candidate.
  destruct (negb (isElementNode node)); [discriminate |].
  destruct (messageContainer node) as [c |]; [| discriminate]. cbv zeta.
  set (text := match textContent c with Some t => trim t | None => [] end).
  destruct (Nat.leb_spec (length text) MIN_MESSAGE_LENGTH); [discriminate |].
  destruct (outgoing c); [discriminate |].
  intros [= <- <-]. cbn [msg_text msg_messageKey msg_timestamp].
  split; [assumption |]. split; [| reflexivity].
  pose proof (extractMessageKey_nonempty c text) as Hk.
  destruct (extractMessageKey c text); [discriminate | reflexivity].
Qed.

Lemma processNode_wellFormed (node : Node) (win : Window) :
  queueWellFormed win -> queueWellFormed (processNode node win).
Proof.
  intros [Hall Hnodup]. unfold processNode.
  destruct (candidate node) as [[message key] |] eqn:Ec; [| split; assumption].
  destruct (candidate_wellFormed node message key Ec) as (Hlen & Hkey & ->).
  case_bool_decide as Hseen; [split; assumption |].
  split; cbn [__messageQueue __seenMessageKeys].
  - apply Forall_app. split.
    + eapply Forall_impl; [exact Hall |]. cbn.
      intros m (? & ? & Hin). repeat split; [assumption | assumption |].
      set_solver.
    + constructor; [| constructor]. repeat split; [assumption | assumption |].
      set_solver.
  - rewrite fmap_app. apply NoDup_app. split; [exact Hnodup |]. split.
    + intros k Hk Hk'. cbn in Hk'. apply list_elem_of_singleton in Hk'.
      subst k. apply Hseen.
      apply list_elem_of_fmap in Hk as (m & -> & Hm).
      rewrite Forall_forall in Hall. apply (Hall m Hm).
    + cbn. apply NoDup_singleton.
Qed.

Lemma pageStep_wellFormed (e : PageEvent) (win : Window) :
  queueWellFormed win -> queueWellFormed (pageStep e win).
Proof.
  destruct e; cbn [pageStep]; [apply processNode_wellFormed | | |];
    intros _; (split; [constructor | cbn; apply NoDup_nil; exact I]).
Qed.

(** X19: at every moment of the page's life after the observer was
    injected, each message in the queue has a text of more than two code
    units and a non-empty identity key, its dedupe key is in the seen-key
    set, and no two messages of the queue have the same dedupe key. *)
Theorem queue_always_wellFormed (before : option Window)
    (es : list PageEvent) :
  queueWellFormed (pageRun es (_injectObserver before)).
Proof.
  assert (Hinit : queueWellFormed (_injectObserver before))
    by (split; [constructor | cbn; apply NoDup_nil; exact I]).
  revert Hinit. generalize (_injectObserver before).
  induction es as [| e es IH]; intros win Hwin; [exact Hwin |].
  cbn [pageRun fold_left]. apply IH, pageStep_wellFormed, Hwin.
Qed.

End PageExtras.

(** ** processNewMessages *)

Section PollingExtras.
Context {host : Host}.
Variable cfg : DetectionConfig.

Lemma detections_app (e1 e2 : list Effect) :
  detections (e1 ++ e2) = detections e1 ++ detections e2.
Proof. unfold detections. apply flat_map_app. Qed.

Lemma handleMessage_at_most_one (r : Readings) (m : Message)
    (w : MessageWatcher) :
  (length (detections (handleMessage cfg r m w).2) <= 1)%nat
  /\ onMessageDetected (handleMessage cfg r m w).1 = onMessageDetected w.
Proof.
  unfold handleMessage. cbv zeta.
  destruct (negb (truthy (JString (msg_text m)))); [cbn; split; [lia | reflexivity] |].
  destruct (negb (_isRecentMessage w (now_recent r) (msg_timestamp m)));
    [cbn; split; [lia | reflexivity] |].
  pose proof (isDuplicate_frame cfg (now_duplicate r) (now_cleanup r)
                (msg_text m) (msg_timestamp m) (msg_messageKey m) w)
    as [_ Hcb].
  destruct (_isDuplicate cfg _ _ _ _ _ w) as [dup w1]. cbn [fst snd] in *.
  destruct dup; [cbn; split; [lia | exact Hcb] |].
  destruct (negb (truthy (_findMatchedKeyword cfg (msg_text m))));
    [cbn; split; [lia | exact Hcb] |].
  destruct (_shouldFilterByChat cfg (chat_filter r));
    [cbn; split; [lia | exact Hcb] |].
  unfold _triggerAlarm. destruct (onMessageDetected w1) eqn:E; cbn;
    (split; [lia | congruence]).
Qed.

Lemma handleEach_bound (rs : nat -> Readings) (i : nat)
    (messages : list Message) (w : MessageWatcher) :
  (length (detections (handleEach cfg rs i messages w).2)
   <= length messages)%nat
  /\ onMessageDetected (handleEach cfg rs i messages w).1
     = onMessageDetected w.
Proof.
  revert i w. induction messages as [| m messages IH]; intros i w.
  - cbn. split; [lia | reflexivity].
  - cbn [handleEach].
    pose proof (handleMessage_at_most_one (rs i) m w) as [H1 Hcb1].
    destruct (handleMessage cfg (rs i) m w) as [w1 e1]. cbn [fst snd] in *.
    pose proof (IH (S i) w1) as [H2 Hcb2].
    destruct (handleEach cfg rs (S i) messages w1) as [w2 e2].
    cbn [fst snd length] in *. rewrite detections_app, length_app.
    split; [lia | congruence].
Qed.

(** X20: a run of processNewMessages in which the page cannot be evaluated
    changes nothing; otherwise it leaves the page queue empty and the
    seen-key set as it was, raises at most one detection per queued message
    and keeps the callback. *)
Theorem processNewMessages_drains (evaluateThrows : bool)
    (rs : nat -> Readings) (win : Window) (w : MessageWatcher) :
  (evaluateThrows = true ->
     processNewMessages cfg evaluateThrows rs win w = (win, w, []))
  /\ (evaluateThrows = false ->
      __messageQueue (processNewMessages cfg evaluateThrows rs win w).1.1 = []
      /\ __seenMessageKeys (processNewMessages cfg evaluateThrows rs win w).1.1
         = __seenMessageKeys win
      /\ (length (detections
                    (processNewMessages cfg evaluateThrows rs win w).2)
          <= length (__messageQueue win))%nat
      /\ onMessageDetected (processNewMessages cfg evaluateThrows rs win w).1.2
         = onMessageDetected w).
Proof.
  split; intros ->; [reflexivity |].
  unfold processNewMessages, drainQueue.
  pose proof (handleEach_bound rs 0 (__messageQueue win) w) as [Hn Hcb].
  destruct (handleEach cfg rs 0 (__messageQueue win) w) as [w' es].
  cbn [fst snd] in *. auto.
Qed.

End PollingExtras.

(** ** The logger *)

Section LoggerExtras.

Lemma level_names_not_inherited (name : jsstring) :
  name ∈ [lit "DEBUG"; lit "INFO"; lit "WARN"; lit "ERROR"] ->
  name ∉ inheritedNames.
Proof.
  intros Hin.
  repeat (apply elem_of_cons in Hin as [-> | Hin];
          [apply (bool_decide_eq_false_1 _); vm_compute; reflexivity |]).
  inversion Hin.
Qed.

(** X21: the logger never runs at the DEBUG level: a configured level of
    "DEBUG" gives the threshold INFO, because the number of DEBUG is 0 and
    the constructor falls back to INFO on a falsy level; debug messages are
    printed only when the configured level is the name of a property that
    every object inherits; error messages are printed whenever logging is
    enabled. *)
Theorem logger_never_at_debug (cfg : LoggingConfig) :
  (logging_level cfg = lit "DEBUG" -> Logger_level cfg = Some LogLevel_INFO)
  /\ (Logger_debug cfg = true
      <-> logging_enabled cfg = true /\ logging_level cfg ∈ inheritedNames)
  /\ Logger_error cfg = logging_enabled cfg.
Proof.
  unfold Logger_debug, Logger_error, Logger_log, Logger_level, LogLevel_lookup.
  cbv zeta. split; [| split].
  - intros ->. reflexivity.
  - destruct (logging_enabled cfg); cbn [negb orb];
      [| split; [discriminate | intros [? _]; discriminate]].
    assert (Hown : forall name,
               logging_level cfg = name ->
               name ∈ [lit "DEBUG"; lit "INFO"; lit "WARN"; lit "ERROR"] ->
               false = true
               <-> true = true /\ logging_level cfg ∈ inheritedNames).
    { intros name Hname Hin. split; [discriminate |]. intros [_ Hinh].
      rewrite Hname in Hinh.
      destruct (level_names_not_inherited name Hin Hinh). }
    case_bool_decide as H1; [apply (Hown _ H1); repeat constructor |].
    case_bool_decide as H2; [apply (Hown _ H2); repeat constructor |].
    case_bool_decide as H3; [apply (Hown _ H3); repeat constructor |].
    case_bool_decide as H4; [apply (Hown _ H4); repeat constructor |].
    case_bool_decide as H5; cbn.
    + split; [auto | reflexivity].
    + split; [discriminate | intros [_ ?]; contradiction].
  - destruct (logging_enabled cfg); cbn [negb orb];
      repeat case_bool_decide; reflexivity.
Qed.

End LoggerExtras.

Lemma logger_never_at_debug_witness :
  Logger_level config_logging = Some LogLevel_INFO.
Proof.
  apply (proj1 (logger_never_at_debug config_logging)). reflexivity.
Defined.

(** ** The recency filter over time *)

Section RecencyExtras.
Context {host : Host}.

(** X22: the recency filter has no age limit: a timestamp it accepts stays
    accepted at every later time, however long after, as long as the
    watermark has not moved; and it is accepted under every earlier
    watermark when neither watermark is at a clock change. *)
Theorem recency_has_no_age_limit (w w' : MessageWatcher) (now now' : Z)
    (timestamp : option Z) :
  _isRecentMessage w now timestamp = true ->
  now <= now' ->
  _isRecentMessage w now' timestamp = true
  /\ (startupTime w' <= startupTime w ->
      zoneSteadyAt (startupTime w) -> zoneSteadyAt (startupTime w') ->
      _isRecentMessage w' now' timestamp = true).
Proof.
  intros Hacc Hnow.
  apply isRecentMessage_spec in Hacc as (t & -> & Hnz & Hle & Hfl).
  split.
  - apply isRecentMessage_spec. exists t.
    split; [reflexivity |]. split; [exact Hnz |]. split; lia.
  - intros Hmark Hs Hs'. apply isRecentMessage_spec. exists t.
    rewrite (Date_setSeconds00_floor _ Hs) in Hfl.
    rewrite (Date_setSeconds00_floor _ Hs').
    pose proof (floorToMinute_mono _ _ Hmark).
    split; [reflexivity |]. split; [exact Hnz |]. split; lia.
Qed.

(** X23: away from a clock change (the offset of local time at the time is
    a whole number of minutes and the start of its local minute is read
    with the same offset), the start of the minute that the recency filter
    compares with is at most the time itself and less than a minute below
    it, is a whole number of minutes since the epoch, and, when its own
    local minute is read with the same offset again, clearing the seconds a
    second time changes nothing. *)
Theorem Date_setSeconds00_bounds (t : Z) :
  zoneSteadyAt t ->
  Date_setSeconds00 t <= t < Date_setSeconds00 t + 60000
  /\ Date_setSeconds00 t mod 60000 = 0
  /\ (zoneSteadyAt (Date_setSeconds00 t) ->
      Date_setSeconds00 (Date_setSeconds00 t) = Date_setSeconds00 t).
Proof.
  intros Hs. rewrite (Date_setSeconds00_floor _ Hs).
  pose proof (Z.mod_pos_bound t 60000).
  assert (Hmul : floorToMinute t mod 60000 = 0).
  { unfold floorToMinute.
    rewrite Zminus_mod, Z.mod_mod, Z.sub_diag by lia. reflexivity. }
  split; [unfold floorToMinute; lia |]. split; [exact Hmul |].
  intros Hs'. rewrite (Date_setSeconds00_floor _ Hs').
  unfold floorToMinute at 1. rewrite Hmul. lia.
Qed.

End RecencyExtras.

Lemma recency_has_no_age_limit_witness :
  _isRecentMessage (host := cairoHost) sampleWatcher
    (1769774759800 + 86400000) (msg_timestamp sampleMessage) = true.
Proof.
  apply (proj1 (recency_has_no_age_limit (host := cairoHost) sampleWatcher
                  sampleWatcher 1769774759800 (1769774759800 + 86400000)
                  (msg_timestamp sampleMessage)
                  ltac:(vm_compute; reflexivity)
                  ltac:(vm_compute; discriminate))).
Defined.

Lemma Date_setSeconds00_bounds_witness :
  Date_setSeconds00 (host := cairoHost) 1769774690000 <= 1769774690000
  /\ Date_setSeconds00 (host := cairoHost) 1769774690000 mod 60000 = 0.
Proof.
  pose proof (Date_setSeconds00_bounds (host := cairoHost) 1769774690000
                ltac:(split; vm_compute; reflexivity)) as (Hle & Hmod & _).
  split; [apply Hle | exact Hmod].
Defined.

(** ** The earlier watcher *)

Section EarlierWatcherExtras.
Context {host : Host}.
Variable cfg : DetectionConfig.

(** X24: in the earlier watcher the fingerprint is the hash of the text
    alone.  With duplicate protection enabled, a non-empty text that is not
    on record within the TTL is put on record with the current time before
    any keyword is looked for, and the same text handed in again within the
    TTL raises nothing and leaves the watcher as it is, so the stored time
    is that of the first sighting. *)
Theorem early_text_seen_once (r1 r2 : EarlyReadings) (text : jsstring)
    (w : EarlyWatcher) :
  enableDuplicateProtection cfg = true ->
  text <> [] ->
  (forall last, early_detectedHashes w !! hashText text = Some last ->
                duplicateCacheTTL cfg
                <= early_now_duplicate r1 - last) ->
  early_now_cleanup r1 <= early_now_duplicate r2 ->
  early_now_duplicate r2 - early_now_duplicate r1 < duplicateCacheTTL cfg ->
  let first := early_handleMessage cfg r1 text w in
  early_detectedHashes first.1 !! hashText text
    = Some (early_now_duplicate r1)
  /\ early_handleMessage cfg r2 text first.1 = (first.1, []).
Proof.
  intros Hen Hne Hold Hclock Hwithin. cbv zeta.
  assert (Ht : truthy (JString text) = true)
    by (destruct text; [congruence | reflexivity]).
  assert (Hrec : early_detectedHashes (early_handleMessage cfg r1 text w).1
                 !! hashText text = Some (early_now_duplicate r1)).
  { unfold early_handleMessage. rewrite Ht, Hen. cbv zeta. cbn [negb].
    set (w1 := {| early_onMessageDetected := early_onMessageDetected w;
                  early_detectedHashes :=
                    <[hashText text := early_now_duplicate r1]>
                      (early_detectedHashes w) |}).
    assert (Hprot : match early_detectedHashes w !! hashText text with
                    | Some lastDetected =>
                        if early_now_duplicate r1 - lastDetected
                           <? duplicateCacheTTL cfg
                        then None else Some w1
                    | None => Some w1
                    end = Some w1).
    { destruct (early_detectedHashes w !! hashText text) as [last |] eqn:El;
        [| reflexivity].
      specialize (Hold last eq_refl).
      destruct (Z.ltb_spec (early_now_duplicate r1 - last)
                  (duplicateCacheTTL cfg)); [lia | reflexivity]. }
    rewrite Hprot.
    assert (Hkeep : early_detectedHashes
                      (if (1000 <? size (early_detectedHashes w1))%nat
                       then {| early_onMessageDetected :=
                                 early_onMessageDetected w1;
                               early_detectedHashes :=
                                 filter (fun entry =>
                                           ¬ (duplicateCacheTTL cfg
                                              < early_now_cleanup r1 - entry.2))
                                        (early_detectedHashes w1) |}
                       else w1) !! hashText text
                    = Some (early_now_duplicate r1)).
    { destruct (1000 <? size (early_detectedHashes w1))%nat;
        cbn [early_detectedHashes w1].
      - apply map_lookup_filter_Some. split; [apply lookup_insert_eq |].
        cbn. lia.
      - apply lookup_insert_eq. }
    destruct (truthy (_findMatchedKeyword cfg text)); [| exact Hkeep].
    destruct (enabled (chatFilter cfg));
      [destruct (negb (isChatAllowed cfg (early_chat r1))); [exact Hkeep |] |];
      match goal with
      | |- context [if early_onMessageDetected ?x then _ else _] =>
          destruct (early_onMessageDetected x)
      end; exact Hkeep. }
  split; [exact Hrec |].
  unfold early_handleMessage at 1. rewrite Ht, Hen. cbv zeta. cbn [negb].
  rewrite Hrec.
  destruct (Z.ltb_spec (early_now_duplicate r2 - early_now_duplicate r1)
              (duplicateCacheTTL cfg)); [reflexivity | lia].
Qed.

End EarlierWatcherExtras.

Lemma early_text_seen_once_witness :
  let r1 := {| early_now_duplicate := 1769774740200;
               early_now_cleanup := 1769774740200;
               early_chat := lit "Mom";
               early_now_event := 1769774740500 |} in
  let r2 := {| early_now_duplicate := 1769774750000;
               early_now_cleanup := 1769774750000;
               early_chat := lit "Mom";
               early_now_event := 1769774750000 |} in
  let w := {| early_onMessageDetected := true;
              early_detectedHashes := ∅ |} in
  let first := early_handleMessage (host := arabicHost) config r1 sampleText w in
  early_handleMessage (host := arabicHost) config r2 sampleText first.1
  = (first.1, []).
Proof.
  cbv zeta.
  refine (proj2 (early_text_seen_once (host := arabicHost) config _ _
                   sampleText _ eq_refl _ _ _ _)).
  - discriminate.
  - intros last Hl. vm_compute in Hl. discriminate.
  - vm_compute. discriminate.
  - vm_compute. reflexivity.
Defined.
